(** * syntaxExtractor: the extension host glue and the extraction engine

    A shallow embedding of the three entry points of the repository

    - the JavaScript entry point ([activate], [showWebview],
      [getWebviewContent]) in [Module ExtensionJs],
    - the TypeScript entry point with the configuration messages
      ([openWebviewAndExplorerSidebar], [handleReceivedMessage],
      [clipBoardPolling], [composeWebViewContent]) in [Module Extension],
    - the older [src/extension.ts] ([getWebviewContent] behind the
      [syntaxExtractor.openGui] command) in [Module ExtensionTs],

    followed by the properties of the specification that speak about them.
    The extraction engine itself ([./operations], [./commands/codeExtractor],
    [./config/ConfigManager]) is imported by these files but is not part of
    the sources at hand; what is needed of it is modelled from the
    specification in [Module Engine] and [Module ConfigManager]. *)

From Stdlib Require Import List NArith ZArith Bool Lia String Ascii.
From Stdlib Require Import Sorted.
Import ListNotations.

Set Implicit Arguments.
Set Warnings "-register-all".

(** ** JavaScript strings

    A JavaScript string is a sequence of UTF-16 code units.  [length],
    [indexOf], [===] and [replace] all work on code units, so this is the
    representation the source computes with. *)
Module JS.

Definition CodeUnit := N.
Definition JSString := list CodeUnit.

(** A code unit has 16 bits. *)
Definition wellFormed (s : JSString) : bool :=
  forallb (fun u => (u <? 65536)%N) s.

(** An ASCII literal of the source as a code-unit sequence. *)
Definition lit (s : string) : JSString :=
  map N_of_ascii (list_ascii_of_string s).

(** The double-quote character, which the literals of the source contain. *)
Definition dquote : JSString := [34%N].

(** [s.length] *)
Definition length (s : JSString) : Z := Z.of_nat (List.length s).

(** [a === b] on strings *)
Fixpoint eqb (a b : JSString) : bool :=
  match a, b with
  | [], [] => true
  | x :: a', y :: b' => (x =? y)%N && eqb a' b'
  | _, _ => false
  end.

(** *** Code points and scalar values *)

Definition isHighSurrogate (u : N) : bool := ((0xD800 <=? u) && (u <=? 0xDBFF))%N.
Definition isLowSurrogate (u : N) : bool := ((0xDC00 <=? u) && (u <=? 0xDFFF))%N.
Definition isSurrogate (u : N) : bool := ((0xD800 <=? u) && (u <=? 0xDFFF))%N.

(** The code points of a string, as the string iterator of the language
    yields them: a high surrogate followed by a low one is one
    supplementary code point, any other code unit stands for itself. *)
Fixpoint codePoints (s : JSString) : list N :=
  match s with
  | [] => []
  | u :: rest =>
      match rest with
      | v :: rest' =>
          if isHighSurrogate u && isLowSurrogate v
          then (0x10000 + (u - 0xD800) * 0x400 + (v - 0xDC00))%N :: codePoints rest'
          else u :: codePoints rest
      | [] => [u]
      end
  end.

(** A Unicode scalar value is a code point that is not a surrogate. *)
Definition isScalarValue (cp : N) : bool :=
  negb (isSurrogate cp) && (cp <=? 0x10FFFF)%N.

Definition scalarCount (s : JSString) : Z :=
  Z.of_nat (List.length (filter isScalarValue (codePoints s))).

(** No code unit of the string is a surrogate: all its characters are
    in the basic plane. *)
Definition noSurrogates (s : JSString) : bool :=
  forallb (fun u => negb (isSurrogate u)) s.

(** *** Arrays of strings *)

(** [arr.indexOf(x)]: the first index holding [x], or [-1]. *)
Fixpoint indexOf (arr : list JSString) (x : JSString) : Z :=
  match arr with
  | [] => (-1)%Z
  | y :: arr' =>
      if eqb y x then 0%Z
      else let i := indexOf arr' x in
           if (i =? -1)%Z then (-1)%Z else (i + 1)%Z
  end.

Fixpoint removeAt {A} (n : nat) (arr : list A) : list A :=
  match arr, n with
  | [], _ => []
  | _ :: arr', O => arr'
  | y :: arr', S n' => y :: removeAt n' arr'
  end.

(** [arr.splice(i, 1)] for [i >= 0]: the element at [i] is removed; past
    the end nothing is removed. *)
Definition splice1 {A} (i : Z) (arr : list A) : list A :=
  removeAt (Z.to_nat i) arr.

(** [arr.push(x)] *)
Definition push {A} (arr : list A) (x : A) : list A := arr ++ [x].

(** *** Search and replace *)

(** One element of the regular expressions of the source: these consist
    of literal characters and of [.], which matches any code unit but a
    line terminator. *)
Inductive Pat := Lit (u : CodeUnit) | AnyChar.

Definition isLineTerminator (u : N) : bool :=
  ((u =? 10) || (u =? 13) || (u =? 0x2028) || (u =? 0x2029))%N.

Definition patMatches (p : Pat) (u : CodeUnit) : bool :=
  match p with
  | Lit c => (c =? u)%N
  | AnyChar => negb (isLineTerminator u)
  end.

(** Does the pattern match a prefix of [s]? *)
Fixpoint matchesAt (pat : list Pat) (s : JSString) : bool :=
  match pat, s with
  | [], _ => true
  | _ :: _, [] => false
  | p :: pat', u :: s' => patMatches p u && matchesAt pat' s'
  end.

(** The replacement loop.  [skip] counts the code units of a match that
    are still to be dropped; [again] tells whether further matches are
    replaced (the [g] flag). *)
Fixpoint replaceFrom (again : bool) (pat : list Pat) (rep : JSString)
         (skip : nat) (enabled : bool) (s : JSString) : JSString :=
  match s with
  | [] => []
  | u :: s' =>
      match skip with
      | S k => replaceFrom again pat rep k enabled s'
      | O =>
          if enabled && matchesAt pat s
          then rep ++ replaceFrom again pat rep (List.length pat - 1) again s'
          else u :: replaceFrom again pat rep 0 enabled s'
      end
  end.

(** [s.replace(/pat/, rep)] and [s.replace(/pat/g, rep)] for a non-empty
    pattern.  The replacement is inserted as it is: the replacements of
    the source are webview URIs, in which [$] is percent-encoded. *)
Definition replaceRegExp (pat : list Pat) (rep : JSString) (s : JSString) : JSString :=
  replaceFrom false pat rep 0 true s.

Definition replaceRegExpAll (pat : list Pat) (rep : JSString) (s : JSString) : JSString :=
  replaceFrom true pat rep 0 true s.

(** [s.replace(str, rep)] with a string pattern: the first occurrence. *)
Definition replace (pat : JSString) (rep : JSString) (s : JSString) : JSString :=
  replaceRegExp (map Lit pat) rep s.

(** A regular expression source in which only [.] is special. *)
Definition regExp (src : JSString) : list Pat :=
  map (fun u => if (u =? 46)%N then AnyChar else Lit u) src.

(** Does the pattern match somewhere in [s]?  (For a pattern that is not
    empty.) *)
Fixpoint occurs (pat : list Pat) (s : JSString) : bool :=
  match s with
  | [] => false
  | _ :: s' => matchesAt pat s || occurs pat s'
  end.

(** Does the pattern match at a position inside [pre], when [pre] is
    followed by [rest]? *)
Fixpoint startsIn (pat : list Pat) (pre rest : JSString) : bool :=
  match pre with
  | [] => false
  | _ :: pre' => matchesAt pat (pre ++ rest) || startsIn pat pre' rest
  end.

End JS.

Import JS.

(** ** The host: panels, files and URIs

    What the sources use of the editor API, with the effects they have on
    the editor written as an explicit state. *)
Module Host.

Definition PanelId := nat.

(** A path below the extension's directory: [path.join(extensionPath, ...)]
    and [vscode.Uri.joinPath(extensionUri, ...)]. *)
Record Path := mkPath { root : JSString; segments : list JSString }.

Definition joinPath (p : Path) (segs : list JSString) : Path :=
  mkPath (root p) (segments p ++ segs).

(** Reading a file gives its text or fails with an error message. *)
Inductive ReadResult :=
| Content (text : JSString)
| ReadError (message : JSString).

Definition Disk := Path -> ReadResult.

(** The result of a JavaScript call: a value, or a thrown error that
    nothing has caught. *)
Inductive Completion (A : Type) :=
| Return (v : A)
| Throw (error : JSString).
Arguments Return {A} v.
Arguments Throw {A} error.

(** The panels of the editor.  [live] are the panels that are open,
    [revealed] those brought to front by [reveal], in order. *)
Record Panels := mkPanels {
  live : list PanelId;
  nextId : PanelId;
  revealed : list PanelId
}.

Definition noPanels : Panels := mkPanels [] 0 [].

(** [vscode.window.createWebviewPanel(...)] *)
Definition createWebviewPanel (ps : Panels) : PanelId * Panels :=
  (nextId ps, mkPanels (live ps ++ [nextId ps]) (S (nextId ps)) (revealed ps)).

(** [panel.reveal(vscode.ViewColumn.One)] *)
Definition reveal (p : PanelId) (ps : Panels) : Panels :=
  mkPanels (live ps) (nextId ps) (revealed ps ++ [p]).

Definition isLive (p : PanelId) (ps : Panels) : bool :=
  existsb (Nat.eqb p) (live ps).

(** The user closes a panel: it leaves the open panels. *)
Definition close (p : PanelId) (ps : Panels) : Panels :=
  mkPanels (filter (fun q => negb (Nat.eqb p q)) (live ps)) (nextId ps) (revealed ps).

(** The reference the extension keeps ([globalPanel], [currentPanel])
    and the open panels agree: the panel the reference holds is the one
    open panel, and without a reference no panel is open. *)
Definition inStep (reference : option PanelId) (ps : Panels) : Prop :=
  live ps = match reference with Some p => [p] | None => [] end.

End Host.

Import Host.

(** ** The configuration store *)
Module ConfigManager.

(** Modelled from the spec: the class [ConfigManager] of
    [./config/ConfigManager] is missing.  The specification describes the
    configuration store as exposing [getFileTypes()/setFileTypes(set)],
    [getCompressionLevel()/setCompressionLevel(level)] and the layout
    preferences "as simple get/set pairs": a setter stores its argument,
    a getter returns what was stored last. *)
Record Store := mkStore {
  fileTypes : list JSString;
  compressionLevel : JSString;
  clipboardDataBoxHeight : Z
}.

Definition getFileTypes (s : Store) : list JSString := fileTypes s.
Definition getCompressionLevel (s : Store) : JSString := compressionLevel s.
Definition getClipboardDataBoxHeight (s : Store) : Z := clipboardDataBoxHeight s.

Definition setFileTypes (v : list JSString) (s : Store) : Store :=
  mkStore v (compressionLevel s) (clipboardDataBoxHeight s).
Definition setCompressionLevel (v : JSString) (s : Store) : Store :=
  mkStore (fileTypes s) v (clipboardDataBoxHeight s).
Definition setClipboardDataBoxHeight (v : Z) (s : Store) : Store :=
  mkStore (fileTypes s) (compressionLevel s) v.

End ConfigManager.

(** ** The FileTypeSet invariant

    An entry is non-empty, begins with a dot and is lower-cased: it is
    the string that [toLowerCase] makes of it. *)
Module FileTypeSet.

(** The upper-case letters of ASCII. *)
Definition isUpper (u : N) : bool := ((65 <=? u) && (u <=? 90))%N.

Section Invariant.
(** [String.prototype.toLowerCase].  It comes with the language and its
    case table is not written out here: it is a parameter. *)
Variable toLowerCase : JSString -> JSString.



End Invariant.

End FileTypeSet.

(** ** The TypeScript entry point: webview, messages, clipboard *)
Module Extension.

(** What the file imports from modules that are not at hand, and what it
    reads from the machine. *)
Class Externals := {
  (** [getTokenCount] of [./operations] *)
  getTokenCount : JSString -> Z;
  (** [initializeFileTypeConfiguration] of [./operations/initializeFileTypes],
      by its effect on the configuration store *)
  initializeFileTypeConfiguration : ConfigManager.Store -> ConfigManager.Store;
  (** [vscode.workspace.fs.readFile] *)
  disk : Disk;
  (** [webview.asWebviewUri(uri)], as a string *)
  asWebviewUri : Path -> JSString;
  extensionUri : Path
}.

(** A message of the webview that carries the properties its command
    reads: [message.command] and these properties.  A message as it may
    arrive, with the text missing, is [Received] below. *)
Record Message := mkMessage {
  command : JSString;
  level : JSString;
  fileTypes : list JSString;
  height : Z;
  text : JSString;
  fileType : JSString
}.

(** The messages posted to the webview. *)
Inductive Posted :=
| RefreshComplete
| SetTokenCount (count : Z)
| SetCharCount (count : Z)
| ConfigUpdated (compressionLevel : option JSString)
                (fileTypes : option (list JSString))
                (clipboardDataBoxHeight : option Z)
| InitConfig (fileTypes : list JSString) (compressionLevel : JSString)
             (clipboardDataBoxHeight : Z)
| UpdateClipboardDataBox (content : JSString) (tokenCount charCount : option Z).

(** Other calls into the editor, kept as a log. *)
Inductive HostCall :=
| ExecuteCommand (name : JSString)
| HandleOpenWebpage
| SetHtml (panel : PanelId) (html : JSString)
| ClipBoardPolling (panel : PanelId).

Record World := mkWorld {
  config : ConfigManager.Store;
  panels : Panels;
  globalPanel : option PanelId;
  posted : list (PanelId * Posted);
  calls : list HostCall;
  (** the open panels whose HTML is being composed *)
  loading : list PanelId
}.

(** State passing; [await] is sequencing. *)
Definition M (A : Type) : Type := World -> A * World.
Definition ret {A} (a : A) : M A := fun w => (a, w).
Definition bind {A B} (m : M A) (k : A -> M B) : M B :=
  fun w => let (a, w') := m w in k a w'.
Definition exec {A} (m : M A) (w : World) : World := snd (m w).

Declare Scope js_scope.
Delimit Scope js_scope with js.
Notation "x <- m ;; k" := (bind m (fun x => k))
  (at level 61, m at next level, right associativity) : js_scope.
Notation "m ;; k" := (bind m (fun _ => k))
  (at level 61, right associativity) : js_scope.
Local Open Scope js_scope.

(** The messages a computation posts when it runs in [w]. *)
Definition postedBy {A} (m : M A) (w : World) : list (PanelId * Posted) :=
  skipn (List.length (posted w)) (posted (exec m w)).

Definition postMessage (panel : PanelId) (m : Posted) : M unit :=
  fun w => (tt, mkWorld (config w) (panels w) (globalPanel w)
                        (posted w ++ [(panel, m)]) (calls w) (loading w)).

Definition call (c : HostCall) : M unit :=
  fun w => (tt, mkWorld (config w) (panels w) (globalPanel w)
                        (posted w) (calls w ++ [c]) (loading w)).

Definition readConfig {A} (getter : ConfigManager.Store -> A) : M A :=
  fun w => (getter (config w), w).

Definition updateConfig (f : ConfigManager.Store -> ConfigManager.Store) : M unit :=
  fun w => (tt, mkWorld (f (config w)) (panels w) (globalPanel w)
                        (posted w) (calls w) (loading w)).

Definition getGlobalPanel : M (option PanelId) := fun w => (globalPanel w, w).

Definition setGlobalPanel (p : option PanelId) : M unit :=
  fun w => (tt, mkWorld (config w) (panels w) p (posted w) (calls w) (loading w)).

Definition createWebviewPanel : M PanelId :=
  fun w => let (p, ps) := Host.createWebviewPanel (panels w) in
           (p, mkWorld (config w) ps (globalPanel w) (posted w) (calls w)
                       (loading w)).

Definition reveal (p : PanelId) : M unit :=
  fun w => (tt, mkWorld (config w) (Host.reveal p (panels w)) (globalPanel w)
                        (posted w) (calls w) (loading w)).

(** The function that composes the HTML of a panel has been started. *)
Definition startLoading (p : PanelId) : M unit :=
  fun w => (tt, mkWorld (config w) (panels w) (globalPanel w)
                        (posted w) (calls w) (loading w ++ [p])).

Definition stillOpen (p : PanelId) : PanelId -> bool := fun q => negb (Nat.eqb p q).

Section WithExternals.
Context {ext : Externals}.

(** [toggled current fileType]: what the [updateFileTypes] case makes of
    the array it got from the store.  The source changes that array in
    place with [splice] and [push] and hands the same array to
    [setFileTypes] and to [postMessage]; all that is read of it afterwards
    is its content, which is the list returned here. *)
Definition toggled (currentFileTypes : list JSString) (fileType : JSString)
  : list JSString :=
  let fileTypeIndex := indexOf currentFileTypes fileType in
  if (fileTypeIndex >? -1)%Z
  then splice1 fileTypeIndex currentFileTypes
  else push currentFileTypes fileType.

Definition refreshFileTypes : M unit :=
  updateConfig initializeFileTypeConfiguration.

Definition case (name : string) (message : Message) : bool :=
  JS.eqb (command message) (lit name).

Definition handleReceivedMessage (message : Message) (panel : PanelId) : M unit :=
  (if case "refreshFileTypes" message then
     refreshFileTypes ;;
     postMessage panel RefreshComplete
   else if case "setCompressionLevel" message then
     updateConfig (ConfigManager.setCompressionLevel (level message))
   else if case "setFileTypes" message then
     updateConfig (ConfigManager.setFileTypes (fileTypes message))
   else if case "setClipboardDataBoxHeight" message then
     updateConfig (ConfigManager.setClipboardDataBoxHeight (height message))
   else if case "openWebpage" message then
     call HandleOpenWebpage
   else if case "countTokens" message then
     let tokenCount := getTokenCount (text message) in
     postMessage panel (SetTokenCount tokenCount)
   else if case "countChars" message then
     let charCount := JS.length (text message) in
     postMessage panel (SetCharCount charCount)
   else if case "requestCounts" message then
     postMessage panel (SetTokenCount (getTokenCount (text message))) ;;
     postMessage panel (SetCharCount (JS.length (text message)))
   else if case "updateFileTypes" message then
     currentFileTypes <- readConfig ConfigManager.getFileTypes ;;
     let currentFileTypes := toggled currentFileTypes (fileType message) in
     updateConfig (ConfigManager.setFileTypes currentFileTypes) ;;
     postMessage panel (ConfigUpdated None (Some currentFileTypes) None)
   else ret tt) ;;
  (* Post back the updated configuration *)
  compressionLevel <- readConfig ConfigManager.getCompressionLevel ;;
  fileTypes <- readConfig ConfigManager.getFileTypes ;;
  clipboardDataBoxHeight <- readConfig ConfigManager.getClipboardDataBoxHeight ;;
  postMessage panel
    (ConfigUpdated (Some compressionLevel) (Some fileTypes)
                   (Some clipboardDataBoxHeight)).

(** *** The handler when a call fails or the text is missing

    [handleReceivedMessage] above is the handler on a message that
    carries what its command reads, with helpers that return.  The
    source catches nothing: when [message.text] is [undefined] the
    expression [message.text.length] throws, and when a helper or a call
    on the configuration store throws or is rejected the handler is
    left at that point.  [handleReceived] is the handler with these
    ways out. *)

(** The calls of the handler into other modules. *)
Inductive HelperCall :=
| CallRefreshFileTypes
| CallSetCompressionLevel
| CallSetFileTypes
| CallSetClipboardDataBoxHeight
| CallHandleOpenWebpage
| CallGetCompressionLevel
| CallGetFileTypes
| CallGetClipboardDataBoxHeight.

Class Failures := {
  (** the error with which a call fails in a state of the store, if it
      fails there; a call that fails is taken to leave the store as it
      was *)
  failure : HelperCall -> ConfigManager.Store -> option JSString;
  (** [getTokenCount(message.text)], which may throw, also when the text
      is [undefined] *)
  tokenCountOf : option JSString -> Completion Z
}.

(** A message as it arrives: [message.text] may be [undefined].  The
    other properties are only passed on (to a setter, to [indexOf] and
    [push]), which does not throw when one is missing; a message
    without a command takes no case of the [switch], as one with an
    unknown command does. *)
Record Received := mkReceived {
  commandOf : JSString;
  levelOf : JSString;
  fileTypesOf : list JSString;
  heightOf : Z;
  textOf : option JSString;
  fileTypeOf : JSString
}.

(** The message with its text, or with the empty text for want of one. *)
Definition asMessage (received : Received) : Message :=
  mkMessage (commandOf received) (levelOf received) (fileTypesOf received)
            (heightOf received)
            (match textOf received with Some t => t | None => [] end)
            (fileTypeOf received).

(** State passing with a way out: an error ends the computation. *)
Definition MX (A : Type) : Type := M (Completion A).

Definition retX {A} (a : A) : MX A := fun w => (Return a, w).

Definition throwX {A} (error : JSString) : MX A := fun w => (Throw error, w).

Definition bindX {A B} (m : MX A) (k : A -> MX B) : MX B :=
  fun w => match m w with
           | (Return a, w') => k a w'
           | (Throw error, w') => (Throw error, w')
           end.

Definition liftX {A} (m : M A) : MX A :=
  fun w => let (a, w') := m w in (Return a, w').

Notation "x <~ m ;; k" := (bindX m (fun x => k))
  (at level 61, m at next level, right associativity) : js_scope.
Notation "m ;;; k" := (bindX m (fun _ => k))
  (at level 61, right associativity) : js_scope.

Definition commandIs (name : string) (received : Received) : bool :=
  JS.eqb (commandOf received) (lit name).

Section WithFailures.
Context {failures : Failures}.

(** An awaited call into another module. *)
Definition attempt {A} (c : HelperCall) (m : M A) : MX A :=
  fun w => match failure c (config w) with
           | Some error => (Throw error, w)
           | None => liftX m w
           end.

Definition getTokenCountOf (text : option JSString) : MX Z :=
  fun w => (tokenCountOf text, w).

(** [message.text.length] *)
Definition lengthOf (text : option JSString) : MX Z :=
  match text with
  | Some t => retX (JS.length t)
  | None => throwX (lit "TypeError: Cannot read properties of undefined")
  end.

Definition handleReceived (received : Received) (panel : PanelId) : MX unit :=
  (if commandIs "refreshFileTypes" received then
     attempt CallRefreshFileTypes refreshFileTypes ;;;
     liftX (postMessage panel RefreshComplete)
   else if commandIs "setCompressionLevel" received then
     attempt CallSetCompressionLevel
             (updateConfig (ConfigManager.setCompressionLevel (levelOf received)))
   else if commandIs "setFileTypes" received then
     attempt CallSetFileTypes
             (updateConfig (ConfigManager.setFileTypes (fileTypesOf received)))
   else if commandIs "setClipboardDataBoxHeight" received then
     attempt CallSetClipboardDataBoxHeight
             (updateConfig (ConfigManager.setClipboardDataBoxHeight (heightOf received)))
   else if commandIs "openWebpage" received then
     attempt CallHandleOpenWebpage (call HandleOpenWebpage)
   else if commandIs "countTokens" received then
     tokenCount <~ getTokenCountOf (textOf received) ;;
     liftX (postMessage panel (SetTokenCount tokenCount))
   else if commandIs "countChars" received then
     charCount <~ lengthOf (textOf received) ;;
     liftX (postMessage panel (SetCharCount charCount))
   else if commandIs "requestCounts" received then
     tokenCount <~ getTokenCountOf (textOf received) ;;
     liftX (postMessage panel (SetTokenCount tokenCount)) ;;;
     charCount <~ lengthOf (textOf received) ;;
     liftX (postMessage panel (SetCharCount charCount))
   else if commandIs "updateFileTypes" received then
     currentFileTypes <~ attempt CallGetFileTypes (readConfig ConfigManager.getFileTypes) ;;
     let currentFileTypes := toggled currentFileTypes (fileTypeOf received) in
     attempt CallSetFileTypes
             (updateConfig (ConfigManager.setFileTypes currentFileTypes)) ;;;
     liftX (postMessage panel (ConfigUpdated None (Some currentFileTypes) None))
   else retX tt) ;;;
  (* Post back the updated configuration *)
  compressionLevel <~ attempt CallGetCompressionLevel
                              (readConfig ConfigManager.getCompressionLevel) ;;
  fileTypes <~ attempt CallGetFileTypes (readConfig ConfigManager.getFileTypes) ;;
  clipboardDataBoxHeight <~ attempt CallGetClipboardDataBoxHeight
                                    (readConfig ConfigManager.getClipboardDataBoxHeight) ;;
  liftX (postMessage panel
           (ConfigUpdated (Some compressionLevel) (Some fileTypes)
                          (Some clipboardDataBoxHeight))).

(** The commands whose case reads [message.text.length]. *)
Definition readsLength (received : Received) : bool :=
  commandIs "countChars" received || commandIs "requestCounts" received.

(** The commands whose case calls [getTokenCount]. *)
Definition callsGetTokenCount (received : Received) : bool :=
  commandIs "countTokens" received || commandIs "requestCounts" received.

(** The last message of the handler: [configUpdated] with the three
    values of the store. *)
Definition updatedConfig (panel : PanelId) (store : ConfigManager.Store)
  : PanelId * Posted :=
  (panel, ConfigUpdated (Some (ConfigManager.getCompressionLevel store))
                        (Some (ConfigManager.getFileTypes store))
                        (Some (ConfigManager.getClipboardDataBoxHeight store))).

End WithFailures.

(** The array the handler passes to [ConfigManager.setFileTypes], in the
    two cases of the [switch] that call it: [setFileTypes] passes the
    array of the message as it is, [updateFileTypes] passes the array it
    got from [getFileTypes], toggled.  ([refreshFileTypes] leaves the
    file types to [initializeFileTypeConfiguration].) *)
Definition submittedFileTypes (message : Message) (currentFileTypes : list JSString)
  : option (list JSString) :=
  if case "setFileTypes" message then Some (fileTypes message)
  else if case "updateFileTypes" message then
    Some (toggled currentFileTypes (fileType message))
  else None.

(** The clipboard observer.  [clipBoardPolling] keeps the last content
    it has seen in [lastKnownClipboardContent]; the callback of
    [setInterval] and the read that follows it both compare what they
    read with it.  Each returns the new value of the variable and the
    messages it posts. *)
Definition intervalCallback (clipboardContent lastKnownClipboardContent : JSString)
  : JSString * list Posted :=
  if negb (JS.eqb clipboardContent lastKnownClipboardContent)
  then (clipboardContent,
        [UpdateClipboardDataBox clipboardContent None None])
  else (lastKnownClipboardContent, []).

Definition firstRead (clipboardContent lastKnownClipboardContent : JSString)
  : JSString * list Posted :=
  if negb (JS.eqb clipboardContent lastKnownClipboardContent)
  then
    let tokenCount := getTokenCount clipboardContent in
    let charCount := JS.length clipboardContent in
    (clipboardContent,
     [UpdateClipboardDataBox clipboardContent (Some tokenCount) (Some charCount)])
  else (lastKnownClipboardContent, []).

Fixpoint intervals (readings : list JSString) (lastKnownClipboardContent : JSString)
  : list Posted :=
  match readings with
  | [] => []
  | clipboardContent :: readings' =>
      let (lastKnown', out) :=
        intervalCallback clipboardContent lastKnownClipboardContent in
      out ++ intervals readings' lastKnown'
  end.

(** One call of [clipBoardPolling]: the messages posted when the first
    read returns [first] and the timer then fires once for each of
    [readings]. *)
Definition clipBoardPolling (first : JSString) (readings : list JSString)
  : list Posted :=
  let lastKnownClipboardContent := [] in
  let (lastKnown', out) := firstRead first lastKnownClipboardContent in
  out ++ intervals readings lastKnown'.

(** [composeWebViewContent]: the two regular expressions are
    [<link rel="stylesheet" href=".\/webview.css">] and
    [<script src="webview.js"><\/script>]. *)
Definition linkTag (href : JSString) : JSString :=
  lit "<link rel=" ++ dquote ++ lit "stylesheet" ++ dquote ++ lit " href="
      ++ dquote ++ href ++ dquote ++ lit ">".

Definition scriptTag (src : JSString) : JSString :=
  lit "<script src=" ++ dquote ++ src ++ dquote ++ lit "></script>".

Definition composeWebViewContent : JSString :=
  let htmlPath := joinPath extensionUri [lit "out"; lit "webview"; lit "webview.html"] in
  match disk htmlPath with
  | Content htmlContent =>
      let styleUri := asWebviewUri
        (joinPath extensionUri [lit "out"; lit "webview"; lit "webview.css"]) in
      let scriptUri := asWebviewUri
        (joinPath extensionUri [lit "out"; lit "webview"; lit "webview.js"]) in
      let htmlContent :=
        replaceRegExp (regExp (linkTag (lit "./webview.css"))) (linkTag styleUri)
                      htmlContent in
      let htmlContent :=
        replaceRegExp (regExp (scriptTag (lit "webview.js"))) (scriptTag scriptUri)
                      htmlContent in
      htmlContent
  | ReadError error => lit "Error loading webview content."
  end.

Definition sendConfigToWebview (panel : PanelId) : M unit :=
  fileTypes <- readConfig ConfigManager.getFileTypes ;;
  compressionLevel <- readConfig ConfigManager.getCompressionLevel ;;
  clipboardDataBoxHeight <- readConfig ConfigManager.getClipboardDataBoxHeight ;;
  postMessage panel (InitConfig fileTypes compressionLevel clipboardDataBoxHeight).

(** The handler installed by [panel.onDidChangeViewState]. *)
Definition onDidChangeViewState (panel : PanelId) (visible : bool) : M unit :=
  if visible then
    sendConfigToWebview panel ;;
    call (ClipBoardPolling panel)
  else ret tt.

Definition setupWebviewPanelActions (panel : PanelId) : M unit :=
  sendConfigToWebview panel.

(** The handler installed by [globalPanel.onDidDispose]. *)
Definition onDidDispose : M unit := setGlobalPanel None.

(** The handler installed by [globalPanel.webview.onDidReceiveMessage]. *)
Definition onDidReceiveMessage (message : Message) : M unit :=
  gp <- getGlobalPanel ;;
  match gp with
  | Some panel => handleReceivedMessage message panel
  | None => ret tt
  end.

(** The HTML is loaded by an [async] function that is started and not
    waited for.  It takes [globalPanel.webview], the webview of the panel
    just created, as the target of its assignment, calls
    [composeWebViewContent] and comes to a halt where that function
    waits for the file; [openWebviewAndExplorerSidebar] goes on at once.
    The assignment is made when the file has been read
    ([htmlComposed]). *)
Definition openWebviewAndExplorerSidebar : M unit :=
  gp <- getGlobalPanel ;;
  match gp with
  | Some panel => reveal panel
  | None =>
      panel <- createWebviewPanel ;;
      setGlobalPanel (Some panel) ;;
      startLoading panel ;;
      setupWebviewPanelActions panel ;;
      call (ClipBoardPolling panel) ;;
      sendConfigToWebview panel
  end ;;
  call (ExecuteCommand (lit "workbench.view.explorer")).

(** The file has been read for the panel [p]: the HTML is composed and
    assigned to the webview of [p]. *)
Definition htmlComposed (p : PanelId) : M unit :=
  fun w =>
    if existsb (Nat.eqb p) (loading w)
    then (tt, mkWorld (config w) (panels w) (globalPanel w) (posted w)
                      (calls w ++ [SetHtml p composeWebViewContent])
                      (filter (stillOpen p) (loading w)))
    else (tt, w).

(** The editor closes a panel that is open and runs the handler the
    extension has installed on it.  If the HTML of the panel is still
    being composed, its assignment will find the webview disposed and
    fail inside the function that nothing waits for: that load is over. *)
Definition closePanel (p : PanelId) : M unit :=
  fun w =>
    if isLive p (panels w)
    then onDidDispose (mkWorld (config w) (Host.close p (panels w)) (globalPanel w)
                               (posted w) (calls w)
                               (filter (stillOpen p) (loading w)))
    else (tt, w).

(** What can happen to the extension once it is active. *)
Inductive Event :=
| CreateWebviewCommand
| TreeViewVisible (visible : bool)
| PanelClosed (p : PanelId)
| ViewStateChanged (p : PanelId) (visible : bool)
| MessageReceived (message : Message)
| HtmlComposed (p : PanelId).

Definition handle (e : Event) : M unit :=
  match e with
  | CreateWebviewCommand => openWebviewAndExplorerSidebar
  | TreeViewVisible visible =>
      if visible then openWebviewAndExplorerSidebar else ret tt
  | PanelClosed p => closePanel p
  | ViewStateChanged p visible =>
      fun w => if isLive p (panels w) then onDidChangeViewState p visible w
               else (tt, w)
  | MessageReceived message => onDidReceiveMessage message
  | HtmlComposed p => htmlComposed p
  end.

Fixpoint run (events : list Event) (w : World) : World :=
  match events with
  | [] => w
  | e :: events' => run events' (exec (handle e) w)
  end.

Definition activated (store : ConfigManager.Store) : World :=
  mkWorld store noPanels None [] [] [].



(** The clipboard contents that a list of messages puts on display. *)
Definition contentOf (m : Posted) : list JSString :=
  match m with
  | UpdateClipboardDataBox content _ _ => [content]
  | _ => []
  end.

Definition contents (out : list Posted) : list JSString := flat_map contentOf out.

(** The panels whose HTML has been set, in the order of the
    assignments. *)
Definition htmlTarget (c : HostCall) : list PanelId :=
  match c with SetHtml p _ => [p] | _ => [] end.

Definition htmlTargets (w : World) : list PanelId := flat_map htmlTarget (calls w).

(** What holds of the world after any run: the reference and the open
    panels agree, the panel referred to is the one created last, only
    panels that were created have been revealed or posted to, no panel
    has had its HTML set twice, and the HTML that is being composed is
    that of an open panel which has none yet. *)
Definition consistent (w : World) : Prop :=
  inStep (globalPanel w) (panels w)
  /\ (forall p, globalPanel w = Some p -> S p = nextId (panels w))
  /\ Forall (fun p => p < nextId (panels w))%nat (revealed (panels w))
  /\ Forall (fun pm => fst pm < nextId (panels w))%nat (posted w)
  /\ NoDup (htmlTargets w)
  /\ Forall (fun p => p < nextId (panels w))%nat (htmlTargets w)
  /\ NoDup (loading w)
  /\ (forall p, In p (loading w) ->
                In p (live (panels w)) /\ ~ In p (htmlTargets w)).

End WithExternals.

End Extension.

(** ** The JavaScript entry point: the extract command and its webview *)
Module ExtensionJs.

Definition Uri := JSString.

Class Externals := {
  (** [fs.readFileSync(path, 'utf8')] *)
  disk : Disk;
  (** [webview.asWebviewUri(uri).toString()] *)
  asWebviewUri : Path -> JSString;
  extensionPath : Path
}.

Inductive HostCall :=
| ShowWarningMessage (message : JSString)
| ExtractCode (uris : list Uri)
| ExecuteCommand (name : JSString)
| SetHtml (panel : PanelId) (html : JSString).

Record World := mkWorld {
  panels : Panels;
  currentPanel : option PanelId;
  calls : list HostCall
}.

Definition M (A : Type) : Type := World -> A * World.
Definition ret {A} (a : A) : M A := fun w => (a, w).
Definition bind {A B} (m : M A) (k : A -> M B) : M B :=
  fun w => let (a, w') := m w in k a w'.
Definition exec {A} (m : M A) (w : World) : World := snd (m w).

Declare Scope jsx_scope.
Notation "x <- m ;; k" := (bind m (fun x => k))
  (at level 61, m at next level, right associativity) : jsx_scope.
Notation "m ;; k" := (bind m (fun _ => k))
  (at level 61, right associativity) : jsx_scope.
Local Open Scope jsx_scope.

Definition call (c : HostCall) : M unit :=
  fun w => (tt, mkWorld (panels w) (currentPanel w) (calls w ++ [c])).

Definition getCurrentPanel : M (option PanelId) := fun w => (currentPanel w, w).

Definition setCurrentPanel (p : option PanelId) : M unit :=
  fun w => (tt, mkWorld (panels w) p (calls w)).

Definition createWebviewPanel : M PanelId :=
  fun w => let (p, ps) := Host.createWebviewPanel (panels w) in
           (p, mkWorld ps (currentPanel w) (calls w)).

Definition reveal (p : PanelId) : M unit :=
  fun w => (tt, mkWorld (Host.reveal p (panels w)) (currentPanel w) (calls w)).

(** The handler of [codeExtractor.extractCode].  [uri] and [uris] are the
    two arguments the editor passes, either of which may be [undefined]. *)
Definition extractCodeCommand (uri : option Uri) (uris : option (list Uri)) : M unit :=
  let noUris := match uris with
                | None => true
                | Some l => (Z.of_nat (List.length l) =? 0)%Z
                end in
  if noUris then
    match uri with
    | Some u => call (ExtractCode [u])
    | None => call (ShowWarningMessage (lit "No folders selected for extraction."))
    end
  else
    match uris with
    | Some l => call (ExtractCode l)
    | None => ret tt
    end.

Section WithExternals.
Context {ext : Externals}.

Definition errorPage (message : JSString) : JSString :=
  lit "<html><body><h1>Error loading webview content</h1><p>" ++ message
      ++ lit "</p></body></html>".

Definition getWebviewContent : JSString :=
  let basePath := joinPath extensionPath [lit "src"; lit "webview"] in
  let htmlPath := joinPath basePath [lit "webview.html"] in
  match disk htmlPath with
  | ReadError message => errorPage message
  | Content htmlContent =>
      let variablesCssUri :=
        asWebviewUri (joinPath basePath [lit "styles"; lit "variables.css"]) in
      let webviewCssUri :=
        asWebviewUri (joinPath basePath [lit "styles"; lit "webview.css"]) in
      let boxCssUri :=
        asWebviewUri (joinPath basePath [lit "styles"; lit "box.css"]) in
      let htmlContent :=
        replace (lit "./styles/variables.css") variablesCssUri htmlContent in
      let htmlContent :=
        replace (lit "./styles/webview.css") webviewCssUri htmlContent in
      let htmlContent :=
        replace (lit "./styles/box.css") boxCssUri htmlContent in
      htmlContent
  end.

Definition showWebview : M unit :=
  cp <- getCurrentPanel ;;
  match cp with
  | Some panel => reveal panel
  | None =>
      panel <- createWebviewPanel ;;
      setCurrentPanel (Some panel) ;;
      let webviewHtml := getWebviewContent in
      call (SetHtml panel webviewHtml)
  end.

(** The handler installed by [currentPanel.onDidDispose]. *)
Definition onDidDispose : M unit := setCurrentPanel None.

(** The handler of [syntaxExtractor.openExplorer]. *)
Definition openExplorerCommand : M unit :=
  call (ExecuteCommand (lit "workbench.view.explorer")) ;;
  showWebview.

Definition closePanel (p : PanelId) : M unit :=
  fun w =>
    if isLive p (panels w)
    then onDidDispose (mkWorld (Host.close p (panels w)) (currentPanel w) (calls w))
    else (tt, w).

Inductive Event :=
| ExtractCodeCommand (uri : option Uri) (uris : option (list Uri))
| OpenExplorerCommand
| TreeViewVisible (visible : bool)
| PanelClosed (p : PanelId).

Definition handle (e : Event) : M unit :=
  match e with
  | ExtractCodeCommand uri uris => extractCodeCommand uri uris
  | OpenExplorerCommand => openExplorerCommand
  | TreeViewVisible visible =>
      if visible then openExplorerCommand else ret tt
  | PanelClosed p => closePanel p
  end.

Fixpoint run (events : list Event) (w : World) : World :=
  match events with
  | [] => w
  | e :: events' => run events' (exec (handle e) w)
  end.

Definition activated : World := mkWorld noPanels None [].

(** How often the HTML of a panel has been set. *)
Definition isSetHtml (c : HostCall) : bool :=
  match c with SetHtml _ _ => true | _ => false end.

Definition htmlLoads (w : World) : nat := List.length (filter isSetHtml (calls w)).

(** What holds of the world after any run: the reference and the open
    panels agree, the panel referred to is the one created last, only
    panels that were created have been revealed, the HTML has been set
    once for each panel created, and the engine has not been called
    without roots. *)
Definition consistent (w : World) : Prop :=
  inStep (currentPanel w) (panels w)
  /\ (forall p, currentPanel w = Some p -> S p = nextId (panels w))
  /\ Forall (fun p => p < nextId (panels w))%nat (revealed (panels w))
  /\ htmlLoads w = nextId (panels w)
  /\ ~ In (ExtractCode []) (calls w).

End WithExternals.

End ExtensionJs.

(** ** [src/extension.ts]: the [syntaxExtractor.openGui] command *)
Module ExtensionTs.

Class Externals := {
  (** [fs.readFileSync(path, 'utf8')] *)
  disk : Disk;
  (** [panel.webview.asWebviewUri(uri)], as a string *)
  asWebviewUri : Path -> JSString;
  extensionPath : Path
}.

Section WithExternals.
Context {ext : Externals}.

Definition srcAttribute (value : JSString) : JSString :=
  lit "src=" ++ dquote ++ value ++ dquote.

(** [fs.readFileSync] throws when it cannot read the file, and nothing
    around the call catches. *)
Definition getWebviewContent : Completion JSString :=
  let filePath := joinPath extensionPath [lit "dist"; lit "webview.html"] in
  match disk filePath with
  | ReadError message => Throw message
  | Content content =>
      let scriptPathOnDisk := joinPath extensionPath [lit "dist"; lit "webview.js"] in
      let scriptUri := asWebviewUri scriptPathOnDisk in
      let content :=
        replaceRegExpAll (regExp (srcAttribute (lit "webview.js")))
                         (srcAttribute scriptUri) content in
      Return content
  end.

(** The handler of [syntaxExtractor.openGui]: a new panel on every call;
    the result is the panel with its HTML, or the error thrown while
    the HTML was loaded, together with the panels then open. *)
Definition openGui (ps : Panels) : Completion (PanelId * JSString) * Panels :=
  let (panel, ps') := Host.createWebviewPanel ps in
  match getWebviewContent with
  | Return html => (Return (panel, html), ps')
  | Throw error => (Throw error, ps')
  end.

(** [openGui] invoked [n] times in a row. *)
Fixpoint openGuiTimes (n : nat) (ps : Panels) : Panels :=
  match n with
  | O => ps
  | S n' => openGuiTimes n' (snd (openGui ps))
  end.

End WithExternals.

End ExtensionTs.

(** ** The extraction engine

    The engine ([getTokenCount], the compression transform, the tree walk
    and the tree renderer) lives in modules the entry points import and
    that are not among the sources.  Its parts below follow the
    specification. *)
Module Engine.

(** *** Counter *)

(** Which characters separate tokens and which are tokens of their own. *)
Class Segmentation := {
  isWhitespace : CodeUnit -> bool;
  isPunctuation : CodeUnit -> bool
}.

(** ASCII white space and ASCII punctuation. *)
Definition asciiSegmentation : Segmentation := {|
  isWhitespace u := ((9 <=? u) && (u <=? 13) || (u =? 32))%N;
  isPunctuation u :=
    ((33 <=? u) && (u <=? 47) || (58 <=? u) && (u <=? 64)
     || (91 <=? u) && (u <=? 96) || (123 <=? u) && (u <=? 126))%N
|}.

Section Counter.
Context {seg : Segmentation}.

(** [inWord] tells whether the code unit before [s] belongs to a word
    that has been counted already. *)
Fixpoint tokensFrom (inWord : bool) (s : JSString) : Z :=
  match s with
  | [] => 0
  | u :: s' =>
      if isWhitespace u then tokensFrom false s'
      else if isPunctuation u then 1 + tokensFrom false s'
      else (if inWord then 0 else 1) + tokensFrom true s'
  end.

(** Modelled from the spec: [getTokenCount] of [./operations] is
    missing.  The specification asks for "a deterministic,
    whitespace-and-punctuation-aware segmentation (not a true subword
    tokenizer)" and leaves the algorithm open: here white space
    separates tokens, a punctuation character is one token, and a
    maximal run of other characters is one token. *)
Definition getTokenCount (text : JSString) : Z := tokensFrom false text.

Record Counts := mkCounts { charCount : Z; tokenCount : Z }.

(** [count(text)]: the token count above and the character count the
    entry points compute, [text.length]. *)
Definition count (text : JSString) : Counts :=
  mkCounts (JS.length text) (getTokenCount text).

End Counter.

(** *** Compression *)

Inductive CompressionLevel := LevelNone | Light | Full.

Definition newline : CodeUnit := 10%N.

(** Blank, tab, vertical tab, form feed and carriage return. *)
Definition isBlankChar (u : CodeUnit) : bool :=
  ((u =? 32) || (u =? 9) || (u =? 11) || (u =? 12) || (u =? 13))%N.

(** The lines of a text: the pieces between line feeds. *)
Fixpoint splitLines (text : JSString) : list JSString :=
  match text with
  | [] => [[]]
  | u :: text' =>
      if (u =? newline)%N then [] :: splitLines text'
      else match splitLines text' with
           | line :: lines => (u :: line) :: lines
           | [] => [[u]]
           end
  end.

Fixpoint joinLines (lines : list JSString) : JSString :=
  match lines with
  | [] => []
  | [line] => line
  | line :: lines' => line ++ newline :: joinLines lines'
  end.

Fixpoint trimStart (line : JSString) : JSString :=
  match line with
  | [] => []
  | u :: line' => if isBlankChar u then trimStart line' else line
  end.

(** A line without its trailing white space. *)
Definition trimEnd (line : JSString) : JSString :=
  rev (trimStart (rev line)).

Definition isBlankLine (line : JSString) : bool := forallb isBlankChar line.

(** A line holds no line feed; a line has no trailing white space. *)
Definition oneLine (line : JSString) : Prop := ~ In newline line.
Definition trimmed (line : JSString) : Prop := trimEnd line = line.

(** A run of blank lines becomes its first line. *)
Fixpoint collapseBlankLines (afterBlank : bool) (lines : list JSString)
  : list JSString :=
  match lines with
  | [] => []
  | line :: lines' =>
      if isBlankLine line
      then if afterBlank then collapseBlankLines true lines'
           else line :: collapseBlankLines true lines'
      else line :: collapseBlankLines false lines'
  end.

Definition slash : CodeUnit := 47%N.
Definition star : CodeUnit := 42%N.

(** Where the scan of a text is: in code, in a comment that runs to the
    end of the line, or in a block comment. *)
Inductive Scan := InCode | InLineComment | InBlockComment.

(** Modelled from the spec: "strip single-line and block comments using
    a best-effort, language-agnostic heuristic (not a real parser)".
    The heuristic reads the text from left to right and knows two forms
    of comment, whatever the language of the file: from [//]
    to the end of the line, and from [/*] to the next [*/] (or to the
    end of the text).  The comments are left out, the line feed that
    ends a line comment stays.  Nothing else of the text is looked at:
    there are no string literals for it. *)
Fixpoint stripComments (state : Scan) (text : JSString) : JSString :=
  match text with
  | [] => []
  | u :: rest =>
      match state with
      | InCode =>
          match rest with
          | v :: rest' =>
              if (u =? slash)%N && (v =? slash)%N
              then stripComments InLineComment rest'
              else if (u =? slash)%N && (v =? star)%N
              then stripComments InBlockComment rest'
              else u :: stripComments InCode rest
          | [] => [u]
          end
      | InLineComment =>
          if (u =? newline)%N then u :: stripComments InCode rest
          else stripComments InLineComment rest
      | InBlockComment =>
          match rest with
          | v :: rest' =>
              if (u =? star)%N && (v =? slash)%N
              then stripComments InCode rest'
              else stripComments InBlockComment rest
          | [] => []
          end
      end
  end.

(** No comment begins anywhere in the text. *)
Fixpoint commentFree (text : JSString) : bool :=
  match text with
  | [] => true
  | u :: rest =>
      match rest with
      | v :: _ => negb ((u =? slash)%N && ((v =? slash)%N || (v =? star)%N))
      | [] => true
      end && commentFree rest
  end.

(** Trailing white space goes from every line, and a run of blank lines
    becomes one blank line. *)
Definition tidyLines (lines : list JSString) : list JSString :=
  collapseBlankLines false (map trimEnd lines).

Definition light (text : JSString) : JSString :=
  joinLines (tidyLines (splitLines text)).

(** Modelled from the spec: the compression transform is missing from
    the sources.  The specification gives the three levels as "None =
    verbatim", "Light = collapse runs of blank lines and trailing
    whitespace", "Full = additionally strip single-line and block
    comments using a best-effort, language-agnostic heuristic (not a
    real parser) and collapse consecutive blank lines to one"; the
    heuristic, which the specification leaves open, is the one of
    [stripComments]. *)
Definition compress (text : JSString) (level : CompressionLevel) : JSString :=
  match level with
  | LevelNone => text
  | Light => light text
  | Full => light (stripComments InCode text)
  end.


(** *** FilterPolicy, TreeWalker, TreeRenderer *)

(** What a root path leads to on disk. *)
Inductive FsEntry :=
| FsFile (name : JSString)
| FsDir (name : JSString) (entries : list FsEntry)
| FsUnreadable (name : JSString).

Inductive TreeNode :=
| Node (displayName : JSString) (isDirectory : bool)
       (children : list TreeNode) (included : bool).

Definition displayName (n : TreeNode) : JSString :=
  let (name, _, _, _) := n in name.
Definition isDirectory (n : TreeNode) : bool :=
  let (_, dir, _, _) := n in dir.
Definition children (n : TreeNode) : list TreeNode :=
  let (_, _, cs, _) := n in cs.
Definition included (n : TreeNode) : bool :=
  let (_, _, _, inc) := n in inc.

Record ExtractionConfig := mkConfig {
  fileTypes : list JSString;
  compressionLevel : CompressionLevel;
  maxFileBytes : N;
  maxTotalBytes : N
}.

Definition toLower (u : CodeUnit) : CodeUnit :=
  if FileTypeSet.isUpper u then (u + 32)%N else u.

Definition toLowerCase (s : JSString) : JSString := map toLower s.

(** The suffix of a name: from its last dot on; none without a dot. *)
Fixpoint suffix (name : JSString) : option JSString :=
  match name with
  | [] => None
  | u :: name' =>
      match suffix name' with
      | Some s => Some s
      | None => if (u =? 46)%N then Some name else None
      end
  end.

Section Walk.
(** The fixed ignore set of directory names (version-control
    internals, package caches, build output). *)
Variable ignoreSet : list JSString.
Variable config : ExtractionConfig.

(** Modelled from the spec: [shouldInclude(path, isDirectory, config)]
    of the FilterPolicy is missing.  A directory is excluded when it
    is in the ignore set; a file is included iff its suffix,
    case-insensitively, is a member of [config.fileTypes], and a file
    without suffix is excluded. *)
Definition shouldInclude (name : JSString) (isDir : bool) : bool :=
  if isDir then negb (existsb (JS.eqb name) ignoreSet)
  else match suffix name with
       | Some s => existsb (JS.eqb (toLowerCase s)) (fileTypes config)
       | None => false
       end.

(** Alphabetical order on names. *)
Fixpoint alphabetical (a b : JSString) : bool :=
  match a, b with
  | [], _ => true
  | _ :: _, [] => false
  | x :: a', y :: b' =>
      if (x <? y)%N then true
      else if (y <? x)%N then false
      else alphabetical a' b'
  end.

(** The order of children: directories first, each group by name
    without regard to case. *)
Definition precedes (a b : TreeNode) : bool :=
  match isDirectory a, isDirectory b with
  | true, false => true
  | false, true => false
  | _, _ => alphabetical (toLowerCase (displayName a)) (toLowerCase (displayName b))
  end.

Fixpoint insertChild (n : TreeNode) (sorted : list TreeNode) : list TreeNode :=
  match sorted with
  | [] => [n]
  | m :: sorted' =>
      if precedes n m then n :: sorted else m :: insertChild n sorted'
  end.

Fixpoint sortChildren (nodes : list TreeNode) : list TreeNode :=
  match nodes with
  | [] => []
  | n :: nodes' => insertChild n (sortChildren nodes')
  end.

(** The node of an entry below a root, if the entry stays in the tree:
    a file stays and is marked by the filter; a directory stays when
    it is not ignored and has an included descendant; what cannot be
    read is left out. *)
Fixpoint walkEntry (e : FsEntry) : option TreeNode :=
  match e with
  | FsFile name => Some (Node name false [] (shouldInclude name false))
  | FsUnreadable _ => None
  | FsDir name entries =>
      if shouldInclude name true then
        let nodes :=
          (fix walkAll (es : list FsEntry) : list TreeNode :=
             match es with
             | [] => []
             | e' :: es' =>
                 match walkEntry e' with
                 | Some n => n :: walkAll es'
                 | None => walkAll es'
                 end
             end) entries in
        let sorted := sortChildren nodes in
        if existsb included sorted
        then Some (Node name true sorted true)
        else None
      else None
  end.

Definition walkAll (es : list FsEntry) : list TreeNode :=
  flat_map (fun e => match walkEntry e with Some n => [n] | None => [] end) es.

(** The node of a root path that exists. *)
Definition walkRoot (e : FsEntry) : option TreeNode :=
  match e with
  | FsFile name => Some (Node name false [] (shouldInclude name false))
  | FsUnreadable _ => None
  | FsDir name entries =>
      let sorted := sortChildren (walkAll entries) in
      Some (Node name true sorted (existsb included sorted))
  end.

Inductive WalkError := EmptySelection.

(** Modelled from the spec: the TreeWalker is missing.  [walk] gives
    one root per root path that resolves to something readable, with
    children "sorted with directories preceding files, each group
    alphabetically (case-insensitive)", and "never fails unless all
    requested root paths are invalid, in which case it signals an
    EmptySelection condition".  The byte budget and the handling of
    links do not bear on that order and are not part of the model. *)
Definition walk (resolve : JSString -> option FsEntry) (rootPaths : list JSString)
  : list TreeNode + WalkError :=
  match flat_map (fun p => match resolve p with Some e => [e] | None => [] end)
                 rootPaths with
  | [] => inr EmptySelection
  | roots =>
      inl (flat_map (fun e => match walkRoot e with Some n => [n] | None => [] end)
                    roots)
  end.

End Walk.

(** [a] may stand before [b] among the children of a node: a file does
    not stand before a directory, and of two directories, or two files,
    the first has the alphabetically smaller name when case is
    disregarded. *)
Definition before (a b : TreeNode) : Prop :=
  (isDirectory b = true -> isDirectory a = true)
  /\ (isDirectory a = isDirectory b ->
      alphabetical (toLowerCase (displayName a)) (toLowerCase (displayName b)) = true).

(** Every child stands before all the children after it, at every node
    of the tree. *)
Inductive Ordered : TreeNode -> Prop :=
| ordered (name : JSString) (dir : bool) (cs : list TreeNode) (inc : bool) :
    StronglySorted before cs -> Forall Ordered cs -> Ordered (Node name dir cs inc).

(** The glyphs of the rendered tree. *)
Definition branch : JSString := [0x251C; 0x2500; 0x2500; 32]%N.
Definition lastBranch : JSString := [0x2514; 0x2500; 0x2500; 32]%N.
Definition pipe : JSString := [0x2502; 32; 32; 32]%N.
Definition blank : JSString := [32; 32; 32; 32]%N.

Definition label (n : TreeNode) : JSString :=
  if isDirectory n then displayName n ++ lit "/" else displayName n.

Definition connector (last : bool) : JSString :=
  if last then lastBranch else branch.

Definition isEmpty {A} (l : list A) : bool :=
  match l with [] => true | _ => false end.

(** The lines of a node below a root and of what hangs below it. *)
Fixpoint renderNode (indent : JSString) (last : bool) (n : TreeNode)
  : list JSString :=
  match n with
  | Node name dir cs _ =>
      (indent ++ connector last ++ (if dir then name ++ lit "/" else name))
        :: (fix renderAll (nodes : list TreeNode) : list JSString :=
              match nodes with
              | [] => []
              | c :: rest =>
                  renderNode (indent ++ (if last then blank else pipe))
                             (isEmpty rest) c
                    ++ renderAll rest
              end) cs
  end.

Fixpoint renderChildren (indent : JSString) (nodes : list TreeNode)
  : list JSString :=
  match nodes with
  | [] => []
  | c :: rest => renderNode indent (isEmpty rest) c ++ renderChildren indent rest
  end.

(** Modelled from the spec: the TreeRenderer is missing.  It "produces a
    line per node using a fixed glyph set for branch/last-child
    connectors", indents by depth, and renders directories "with a
    trailing path separator" and files by their bare names. *)
Definition renderLines (roots : list TreeNode) : list JSString :=
  flat_map (fun n => label n :: renderChildren [] (children n)) roots.

Definition render (roots : list TreeNode) : JSString :=
  joinLines (renderLines roots).

End Engine.

(** ** Concrete inputs

    A machine on which no file can be read, and the messages of the
    webview, for the runs below. *)
Module Samples.

Definition extensionDir : Path := mkPath (lit "/ext") [].

Definition uriOf (p : Path) : JSString :=
  lit "vscode-webview://" ++ root p
      ++ flat_map (fun seg => lit "/" ++ seg) (segments p).

Definition noFiles : Disk := fun _ => ReadError (lit "ENOENT").

Definition externals : Extension.Externals := {|
  Extension.getTokenCount := Engine.getTokenCount (seg := Engine.asciiSegmentation);
  Extension.initializeFileTypeConfiguration := fun store => store;
  Extension.disk := noFiles;
  Extension.asWebviewUri := uriOf;
  Extension.extensionUri := extensionDir
|}.

Definition externalsJs : ExtensionJs.Externals := {|
  ExtensionJs.disk := noFiles;
  ExtensionJs.asWebviewUri := uriOf;
  ExtensionJs.extensionPath := extensionDir
|}.

(** A machine that holds [out/webview/webview.html]. *)
Definition page : JSString :=
  lit "<head>" ++ Extension.linkTag (lit "./webview.css")
      ++ Extension.scriptTag (lit "webview.js") ++ lit "</head>".

Definition onePage : Disk :=
  fun p =>
    if JS.eqb (uriOf p) (lit "vscode-webview:///ext/out/webview/webview.html")
    then Content page
    else ReadError (lit "ENOENT").

Definition externalsWithPage : Extension.Externals := {|
  Extension.getTokenCount := Engine.getTokenCount (seg := Engine.asciiSegmentation);
  Extension.initializeFileTypeConfiguration := fun store => store;
  Extension.disk := onePage;
  Extension.asWebviewUri := uriOf;
  Extension.extensionUri := extensionDir
|}.

Definition requestCounts (text : JSString) : Extension.Message :=
  Extension.mkMessage (lit "requestCounts") [] [] 0 text [].

Definition store : ConfigManager.Store :=
  ConfigManager.mkStore [lit ".ts"] (lit "none") 200.

(** The extension with its one panel open. *)
Definition opened : Extension.World :=
  Extension.mkWorld store (mkPanels [0] 1 []) (Some 0) [] [] [].

(** A settings file that cannot be written: the setters are rejected. *)
Definition rejectedWrites : Extension.Failures := {|
  Extension.failure := fun c _ =>
    match c with
    | Extension.CallSetCompressionLevel
    | Extension.CallSetFileTypes
    | Extension.CallSetClipboardDataBoxHeight => Some (lit "EACCES")
    | _ => None
    end;
  Extension.tokenCountOf := fun text =>
    match text with
    | Some t => Return (Engine.getTokenCount (seg := Engine.asciiSegmentation) t)
    | None => Throw (lit "TypeError: text is undefined")
    end
|}.

(** The message [{ command: 'setCompressionLevel', level: 'full' }]. *)
Definition setCompressionLevelFull : Extension.Received :=
  Extension.mkReceived (lit "setCompressionLevel") (lit "full") [] 0 None [].

(** Helpers that return, but for [getTokenCount] without a text. *)
Definition noFailures : Extension.Failures := {|
  Extension.failure := fun _ _ => None;
  Extension.tokenCountOf := fun text =>
    match text with
    | Some t => Return (Engine.getTokenCount (seg := Engine.asciiSegmentation) t)
    | None => Throw (lit "TypeError: text is undefined")
    end
|}.

(** The message [{ command: 'countChars' }], with no text. *)
Definition countCharsWithoutText : Extension.Received :=
  Extension.mkReceived (lit "countChars") [] [] 0 None [].

Definition countCharsOf (text : JSString) : Extension.Received :=
  Extension.mkReceived (lit "countChars") [] [] 0 (Some text) [].

Definition countChars (text : JSString) : Extension.Message :=
  Extension.mkMessage (lit "countChars") [] [] 0 text [].

Definition updateFileTypes (fileType : JSString) : Extension.Message :=
  Extension.mkMessage (lit "updateFileTypes") [] [] 0 [] fileType.

Definition setFileTypes (fileTypes : list JSString) : Extension.Message :=
  Extension.mkMessage (lit "setFileTypes") [] fileTypes 0 [] [].


(** U+1F600, one character outside the basic plane. *)
Definition grinningFace : JSString := [0xD83D; 0xDE00]%N.

(** A directory with [b.ts], [a.ts] and a sub-directory [sub] that
    holds [c.ts]. *)
Definition project : Engine.FsEntry :=
  Engine.FsDir (lit "project")
    [Engine.FsFile (lit "b.ts");
     Engine.FsFile (lit "a.ts");
     Engine.FsDir (lit "sub") [Engine.FsFile (lit "c.ts")]].

Definition tsOnly : Engine.ExtractionConfig :=
  Engine.mkConfig [lit ".ts"] Engine.LevelNone 65536 1048576.

Definition ignored : list JSString := [lit ".git"; lit "node_modules"].

(** A machine on which every file holds the same text, with no tag and
    no reference in it. *)
Definition plain : JSString := lit "<p>nothing to load</p>".

Definition plainDisk : Disk := fun _ => Content plain.

Definition externalsPlain : Extension.Externals := {|
  Extension.getTokenCount := Engine.getTokenCount (seg := Engine.asciiSegmentation);
  Extension.initializeFileTypeConfiguration := fun store => store;
  Extension.disk := plainDisk;
  Extension.asWebviewUri := uriOf;
  Extension.extensionUri := extensionDir
|}.

Definition externalsJsPlain : ExtensionJs.Externals := {|
  ExtensionJs.disk := plainDisk;
  ExtensionJs.asWebviewUri := uriOf;
  ExtensionJs.extensionPath := extensionDir
|}.

Definition externalsTsPlain : ExtensionTs.Externals := {|
  ExtensionTs.disk := plainDisk;
  ExtensionTs.asWebviewUri := uriOf;
  ExtensionTs.extensionPath := extensionDir
|}.

End Samples.

(** * Properties *)

Unset Implicit Arguments.

(** ** Runs of the model *)

Example replace_takes_the_first_occurrence :
  replace (lit "./styles/box.css") (lit "URI")
          (lit "<a ./styles/box.css b ./styles/box.css>")
  = lit "<a URI b ./styles/box.css>".
Proof. reflexivity. Qed.

Example dot_matches_any_character :
  replaceRegExpAll (regExp (lit "a.c")) (lit "U") (lit "abc a.c abcd ac")
  = lit "U U Ud ac"
  /\ replaceRegExp (regExp (lit "a.c")) (lit "U") (lit "abc a.c abcd ac")
     = lit "U a.c abcd ac".
Proof. split; reflexivity. Qed.

Example composeWebViewContent_rewrites_the_tags :
  Extension.composeWebViewContent (ext := Samples.externalsWithPage)
  = lit "<head>"
      ++ Extension.linkTag (lit "vscode-webview:///ext/out/webview/webview.css")
      ++ Extension.scriptTag (lit "vscode-webview:///ext/out/webview/webview.js")
      ++ lit "</head>".
Proof. reflexivity. Qed.

Example requestCounts_run :
  Extension.postedBy
    (Extension.handleReceivedMessage (ext := Samples.externals)
       (Samples.requestCounts (lit "let x = 1;")) 0)
    Samples.opened
  = [(0, Extension.SetTokenCount 5);
     (0, Extension.SetCharCount 10);
     (0, Extension.ConfigUpdated (Some (lit "none")) (Some [lit ".ts"]) (Some 200%Z))].
Proof. reflexivity. Qed.

Example toggle_runs :
  Extension.toggled [lit ".ts"; lit ".md"] (lit ".ts") = [lit ".md"]
  /\ Extension.toggled [lit ".ts"] (lit ".md") = [lit ".ts"; lit ".md"].
Proof. split; reflexivity. Qed.

Example open_close_open :
  let w := Extension.run (ext := Samples.externals)
             [Extension.CreateWebviewCommand; Extension.CreateWebviewCommand;
              Extension.PanelClosed 0; Extension.CreateWebviewCommand]
             (Extension.activated Samples.store) in
  live (Extension.panels w) = [1]
  /\ revealed (Extension.panels w) = [0]
  /\ Extension.globalPanel w = Some 1.
Proof. repeat split. Qed.

(** The HTML comes after the command has returned, and not at all when
    the panel is closed before the file is read. *)
Example html_is_assigned_later :
  let start := Extension.activated Samples.store in
  let run := Extension.run (ext := Samples.externals) in
  Extension.htmlTargets (run [Extension.CreateWebviewCommand] start) = []
  /\ Extension.loading (run [Extension.CreateWebviewCommand] start) = [0]
  /\ Extension.htmlTargets
       (run [Extension.CreateWebviewCommand; Extension.HtmlComposed 0] start)
     = [0]
  /\ Extension.htmlTargets
       (run [Extension.CreateWebviewCommand; Extension.PanelClosed 0;
             Extension.HtmlComposed 0] start)
     = []
  /\ Extension.htmlTargets
       (run [Extension.CreateWebviewCommand; Extension.PanelClosed 0;
             Extension.CreateWebviewCommand; Extension.HtmlComposed 0;
             Extension.HtmlComposed 1] start)
     = [1].
Proof. repeat split. Qed.

(** [requestCounts] without a text: [getTokenCount] is the first to meet
    the missing text. *)
Example requestCounts_without_text :
  Extension.handleReceived (ext := Samples.externals)
    (failures := Samples.noFailures)
    (Extension.mkReceived (lit "requestCounts") [] [] 0 None []) 0 Samples.opened
  = (Throw (lit "TypeError: text is undefined"), Samples.opened).
Proof. reflexivity. Qed.

Example light_compression :
  Engine.compress (lit "a  " ++ [10; 10; 32; 10]%N ++ lit "b // c") Engine.Light
  = lit "a" ++ [10; 10]%N ++ lit "b // c".
Proof. reflexivity. Qed.

Example full_compression :
  Engine.compress
    (lit "a" ++ [10]%N ++ lit "  // note" ++ [10]%N ++ lit "/* one"
         ++ [10]%N ++ lit "two */" ++ [10]%N ++ lit "b")
    Engine.Full
  = lit "a" ++ [10; 10]%N ++ lit "b"
  /\ Engine.compress (lit "x = 1; // note") Engine.Full = lit "x = 1;"
  /\ Engine.compress (lit "/* c */ x = 1;" ++ [10]%N ++ lit "y = 2;") Engine.Full
     = lit " x = 1;" ++ [10]%N ++ lit "y = 2;"
  /\ Engine.compress (lit "a /* open") Engine.Full = lit "a".
Proof. repeat split. Qed.

Example token_count :
  Engine.getTokenCount (seg := Engine.asciiSegmentation) (lit "hello, world!") = 4%Z.
Proof. reflexivity. Qed.

(** ** Strings *)

Lemma eqb_eq (a b : JSString) : JS.eqb a b = true <-> a = b.
Proof.
  revert b; induction a as [|x a IH]; intros [|y b]; simpl; split;
    try congruence; try reflexivity.
  - intros H. apply andb_true_iff in H as [Hx Hab].
    apply N.eqb_eq in Hx. apply IH in Hab. congruence.
  - intros H. injection H as -> ->. rewrite N.eqb_refl. simpl. now apply IH.
Qed.

Lemma eqb_refl (a : JSString) : JS.eqb a a = true.
Proof. now apply eqb_eq. Qed.

Lemma eqb_neq (a b : JSString) : JS.eqb a b = false <-> a <> b.
Proof.
  split.
  - intros H E. apply eqb_eq in E. congruence.
  - intros H. destruct (JS.eqb a b) eqn:E; [|reflexivity].
    apply eqb_eq in E. contradiction.
Qed.

Lemma scalar_unit (u : N) :
  (u < 65536)%N -> isScalarValue u = negb (isSurrogate u).
Proof.
  intros Hu. unfold isScalarValue, isSurrogate.
  destruct (N.leb_spec 0xD800 u), (N.leb_spec u 0xDFFF), (N.leb_spec u 0x10FFFF);
    simpl; try reflexivity; lia.
Qed.

Lemma scalar_pair (u v : N) :
  isHighSurrogate u = true -> isLowSurrogate v = true ->
  isScalarValue (0x10000 + (u - 0xD800) * 0x400 + (v - 0xDC00))%N = true.
Proof.
  unfold isHighSurrogate, isLowSurrogate, isScalarValue, isSurrogate.
  rewrite !andb_true_iff, !N.leb_le, negb_true_iff, andb_false_iff, !N.leb_gt.
  intros [? ?] [? ?]. split; lia.
Qed.

Lemma high_is_surrogate (u : N) : isHighSurrogate u = true -> isSurrogate u = true.
Proof.
  unfold isHighSurrogate, isSurrogate. rewrite !andb_true_iff, !N.leb_le. lia.
Qed.

Lemma wellFormed_cons (u : N) (s : JSString) :
  wellFormed (u :: s) = true <-> (u < 65536)%N /\ wellFormed s = true.
Proof.
  unfold wellFormed. cbn [forallb]. rewrite andb_true_iff, N.ltb_lt. tauto.
Qed.

Lemma scalars_bounded (n : nat) :
  forall s, (List.length s <= n)%nat -> wellFormed s = true ->
    let k := List.length (filter isScalarValue (codePoints s)) in
    (k <= List.length s)%nat /\ (k = List.length s <-> noSurrogates s = true).
Proof.
  induction n as [|n IH]; intros s Hn Hwf.
  - destruct s as [|u s]; [|cbn [List.length] in Hn; lia].
    cbn. split; [lia|tauto].
  - destruct s as [|u [|v rest]].
    + cbn. split; [lia|tauto].
    + apply wellFormed_cons in Hwf as [Hu _].
      cbn [codePoints filter]. rewrite (scalar_unit u Hu).
      unfold noSurrogates. cbn [forallb].
      destruct (isSurrogate u); cbn; split; try lia; split; intros;
        try lia; congruence.
    + apply wellFormed_cons in Hwf as [Hu Hwf'].
      change (codePoints (u :: v :: rest)) with
        (if isHighSurrogate u && isLowSurrogate v
         then (0x10000 + (u - 0xD800) * 0x400 + (v - 0xDC00))%N :: codePoints rest
         else u :: codePoints (v :: rest)).
      destruct (isHighSurrogate u && isLowSurrogate v) eqn:Hpair.
      * apply andb_true_iff in Hpair as [Hh Hl].
        pose proof Hwf' as Hwf''. apply wellFormed_cons in Hwf'' as [_ Hwf''].
        destruct (IH rest ltac:(cbn [List.length] in Hn; lia) Hwf'') as [Hle _].
        cbn [filter]. rewrite (scalar_pair _ _ Hh Hl).
        unfold noSurrogates. cbn [forallb List.length] in *.
        rewrite (high_is_surrogate _ Hh). cbn.
        split; [lia|]. split; intros; [lia|congruence].
      * destruct (IH (v :: rest) ltac:(cbn [List.length] in Hn |- *; lia) Hwf') as [Hle Heq].
        cbn [filter]. unfold noSurrogates in *. cbn [forallb List.length] in *.
        rewrite (scalar_unit u Hu).
        destruct (isSurrogate u); cbn [negb andb List.length].
        -- split; [lia|]. split; intros; [lia|congruence].
        -- split; [lia|]. rewrite <- Heq. cbn [List.length]. lia.
Qed.

Lemma scalarCount_le_length (s : JSString) :
  wellFormed s = true ->
  (scalarCount s <= JS.length s)%Z
  /\ (scalarCount s = JS.length s <-> noSurrogates s = true).
Proof.
  intros Hwf. unfold scalarCount, JS.length.
  destruct (scalars_bounded (List.length s) s (le_n _) Hwf) as [Hle Heq].
  split; [lia|]. rewrite <- Heq. lia.
Qed.

(** ** The message handler *)

Section Handler.
Import Extension.
Context {ext : Externals}.

Lemma case_command (name : string) (message : Message) :
  command message = lit name -> case name message = true.
Proof. intros H. unfold case. rewrite H. apply eqb_refl. Qed.

(** What [countChars] posts. *)
Lemma countChars_posts (message : Message) (panel : PanelId) (w : World) :
  command message = lit "countChars" ->
  posted (exec (handleReceivedMessage message panel) w)
  = posted w
      ++ [(panel, SetCharCount (JS.length (text message)));
          (panel, ConfigUpdated (Some (ConfigManager.compressionLevel (config w)))
                                (Some (ConfigManager.fileTypes (config w)))
                                (Some (ConfigManager.clipboardDataBoxHeight (config w))))].
Proof.
  intros H. unfold handleReceivedMessage, case. rewrite H. cbn.
  now rewrite <- app_assoc.
Qed.

(** What [requestCounts] posts. *)
Lemma requestCounts_posts (message : Message) (panel : PanelId) (w : World) :
  command message = lit "requestCounts" ->
  posted (exec (handleReceivedMessage message panel) w)
  = posted w
      ++ [(panel, SetTokenCount (getTokenCount (text message)));
          (panel, SetCharCount (JS.length (text message)));
          (panel, ConfigUpdated (Some (ConfigManager.compressionLevel (config w)))
                                (Some (ConfigManager.fileTypes (config w)))
                                (Some (ConfigManager.clipboardDataBoxHeight (config w))))].
Proof.
  intros H. unfold handleReceivedMessage, case. rewrite H. cbn.
  now rewrite <- !app_assoc.
Qed.

Lemma postedBy_app {A} (m : M A) (w : World) (out : list (PanelId * Posted)) :
  posted (exec m w) = posted w ++ out -> postedBy m w = out.
Proof.
  intros H. unfold postedBy. rewrite H.
  rewrite skipn_app, skipn_all, Nat.sub_diag. reflexivity.
Qed.

(** The handler only adds to what has been posted, and the last message
    it adds is the configuration read back from the store. *)
Lemma handler_posts (message : Message) (panel : PanelId) (w : World) :
  let w' := exec (handleReceivedMessage message panel) w in
  exists earlier,
    posted w' = posted w ++ earlier
      ++ [(panel, ConfigUpdated
                    (Some (ConfigManager.getCompressionLevel (config w')))
                    (Some (ConfigManager.getFileTypes (config w')))
                    (Some (ConfigManager.getClipboardDataBoxHeight (config w'))))].
Proof.
  unfold handleReceivedMessage.
  repeat match goal with
         | |- context [if case ?name message then _ else _] =>
             destruct (case name message)
         end;
    cbn; rewrite <- ?app_assoc; cbn;
    match goal with
    | |- exists earlier, ?l ++ ?mid = ?l ++ earlier ++ [?x] =>
        first [ exists [] ; reflexivity
              | eexists [_] ; reflexivity
              | eexists [_; _] ; reflexivity ]
    end.
Qed.

(** *** The toggle of [updateFileTypes] *)

Lemma indexOf_absent (arr : list JSString) (x : JSString) :
  ~ In x arr -> indexOf arr x = (-1)%Z.
Proof.
  induction arr as [|y arr IH]; simpl; intros H; [reflexivity|].
  destruct (JS.eqb y x) eqn:E.
  - apply eqb_eq in E. tauto.
  - rewrite IH by tauto. reflexivity.
Qed.

Lemma indexOf_first (l1 l2 : list JSString) (x : JSString) :
  ~ In x l1 -> indexOf (l1 ++ x :: l2) x = Z.of_nat (List.length l1).
Proof.
  induction l1 as [|y l1 IH]; simpl; intros H.
  - now rewrite eqb_refl.
  - destruct (JS.eqb y x) eqn:E.
    + apply eqb_eq in E. tauto.
    + rewrite IH by tauto.
      destruct (Z.eqb_spec (Z.of_nat (List.length l1)) (-1)); lia.
Qed.

Lemma first_occurrence (arr : list JSString) (x : JSString) :
  In x arr -> exists l1 l2, arr = l1 ++ x :: l2 /\ ~ In x l1.
Proof.
  induction arr as [|y arr IH]; simpl; intros H; [tauto|].
  destruct (JS.eqb y x) eqn:E.
  - apply eqb_eq in E. subst. exists [], arr. simpl. tauto.
  - apply eqb_neq in E. destruct H as [H|H]; [congruence|].
    destruct (IH H) as (l1 & l2 & -> & Hn).
    exists (y :: l1), l2. simpl. split; [reflexivity|]. tauto.
Qed.

Lemma removeAt_middle {A} (l1 l2 : list A) (x : A) :
  removeAt (List.length l1) (l1 ++ x :: l2) = l1 ++ l2.
Proof. induction l1; simpl; congruence. Qed.

Lemma toggled_present (l1 l2 : list JSString) (x : JSString) :
  ~ In x l1 -> toggled (l1 ++ x :: l2) x = l1 ++ l2.
Proof.
  intros H. unfold toggled, splice1. rewrite indexOf_first by assumption.
  destruct (Z.gtb_spec (Z.of_nat (List.length l1)) (-1)); [|lia].
  rewrite Nat2Z.id. apply removeAt_middle.
Qed.

Lemma toggled_absent (arr : list JSString) (x : JSString) :
  ~ In x arr -> toggled arr x = arr ++ [x].
Proof. intros H. unfold toggled. now rewrite indexOf_absent by assumption. Qed.




(** With the store that keeps what it is given, what the handler passes
    to [setFileTypes] is what the store holds afterwards. *)
Lemma submitted_is_stored (message : Message) (panel : PanelId) (w : World)
      (submitted : list JSString) :
  submittedFileTypes message (ConfigManager.getFileTypes (config w)) = Some submitted ->
  config (exec (handleReceivedMessage message panel) w)
  = ConfigManager.setFileTypes submitted (config w).
Proof.
  unfold submittedFileTypes. intros H.
  destruct (case "setFileTypes" message) eqn:Es.
  - injection H as <-. unfold case in Es. apply eqb_eq in Es.
    unfold handleReceivedMessage, case. rewrite Es. reflexivity.
  - destruct (case "updateFileTypes" message) eqn:Eu; [|discriminate].
    injection H as <-. unfold case in Eu. apply eqb_eq in Eu.
    unfold handleReceivedMessage, case. rewrite Eu. reflexivity.
Qed.

Lemma updateFileTypes_store (message : Message) (panel : PanelId) (w : World) :
  command message = lit "updateFileTypes" ->
  ConfigManager.fileTypes (config (exec (handleReceivedMessage message panel) w))
  = toggled (ConfigManager.fileTypes (config w)) (fileType message).
Proof.
  intros H. unfold handleReceivedMessage, case. rewrite H. reflexivity.
Qed.

(** C1, as the code has it: for a text received with [countChars] or
    [requestCounts], the one character count posted back is the number
    of UTF-16 code units of the text, [text.length].  The number of
    Unicode scalar values of the text is never larger, and the two are
    equal exactly when the text has no surrogate code unit, that is, no
    character outside the basic plane. *)
Theorem charCount_is_utf16_length (message : Message) (panel : PanelId) (w : World) :
  wellFormed (text message) = true ->
  command message = lit "countChars" \/ command message = lit "requestCounts" ->
  let out := postedBy (handleReceivedMessage message panel) w in
  In (panel, SetCharCount (JS.length (text message))) out
  /\ (forall p c, In (p, SetCharCount c) out -> c = JS.length (text message))
  /\ (scalarCount (text message) <= JS.length (text message))%Z
  /\ (scalarCount (text message) = JS.length (text message)
      <-> noSurrogates (text message) = true).
Proof.
  intros Hwf Hcmd out.
  destruct (scalarCount_le_length (text message) Hwf) as [Hle Heq].
  assert (Hout :
    out = [(panel, SetCharCount (JS.length (text message)));
           (panel, ConfigUpdated (Some (ConfigManager.compressionLevel (config w)))
                                 (Some (ConfigManager.fileTypes (config w)))
                                 (Some (ConfigManager.clipboardDataBoxHeight (config w))))]
    \/ out = [(panel, SetTokenCount (getTokenCount (text message)));
              (panel, SetCharCount (JS.length (text message)));
              (panel, ConfigUpdated (Some (ConfigManager.compressionLevel (config w)))
                                    (Some (ConfigManager.fileTypes (config w)))
                                    (Some (ConfigManager.clipboardDataBoxHeight (config w))))]).
  { destruct Hcmd as [Hcmd|Hcmd]; [left|right]; apply postedBy_app.
    - now apply countChars_posts.
    - now apply requestCounts_posts. }
  repeat split; try assumption; try (apply Heq).
  - destruct Hout as [-> | ->]; simpl; tauto.
  - intros p c Hin.
    destruct Hout as [Hout | Hout]; rewrite Hout in Hin; simpl in Hin;
      repeat (destruct Hin as [Hin|Hin]; [congruence|]); contradiction.
Qed.


End Handler.

(** C1 at a message: [countChars] with the text [hi]. *)
Lemma charCount_is_utf16_length_witness :
  wellFormed (lit "hi") = true
  /\ In (0, Extension.SetCharCount 2)
        (Extension.postedBy
           (Extension.handleReceivedMessage (ext := Samples.externals)
              (Samples.countChars (lit "hi")) 0)
           Samples.opened).
Proof.
  split; [reflexivity|].
  apply (charCount_is_utf16_length (ext := Samples.externals)
           (Samples.countChars (lit "hi")) 0 Samples.opened);
    [reflexivity | left; reflexivity].
Defined.

(** C1 as stated fails: for the one character U+1F600 the handler posts
    the character count 2, and the text has one scalar value. *)
Lemma charCount_of_supplementary_character :
  wellFormed Samples.grinningFace = true
  /\ scalarCount Samples.grinningFace = 1%Z
  /\ Extension.postedBy
       (Extension.handleReceivedMessage (ext := Samples.externals)
          (Samples.countChars Samples.grinningFace) 0)
       Samples.opened
     = [(0, Extension.SetCharCount 2);
        (0, Extension.ConfigUpdated (Some (lit "none")) (Some [lit ".ts"]) (Some 200%Z))].
Proof. repeat split. Qed.



(** ** The handler when a call fails or the text is missing *)

Section HandlerWithFailures.
Import Extension.
Context {ext : Externals} {failures : Failures}.

(** Deciding the tests of the [switch] one after the other. *)
Ltac switchX received :=
  unfold handleReceived;
  repeat match goal with
         | |- context [if commandIs ?name received then _ else _] =>
             let E := fresh "E" in destruct (commandIs name received) eqn:E
         end.

(** Following the handler through every way its calls can end. *)
Ltac outcomes :=
  unfold exec, bindX, attempt, getTokenCountOf, lengthOf, liftX, retX, throwX;
  repeat (cbn;
          match goal with
          | |- context [match failure ?c ?s with _ => _ end] =>
              destruct (failure c s)
          | |- context [match tokenCountOf ?t with _ => _ end] =>
              destruct (tokenCountOf t)
          | |- context [match textOf ?r with _ => _ end] =>
              destruct (textOf r)
          end);
  cbn.

(** What the handler posts, by the way it ends. *)
Lemma handleReceived_posts (received : Received) (panel : PanelId) (w : World) :
  exists out,
    posted (exec (handleReceived received panel) w) = posted w ++ out
    /\ (List.length out <= 3)%nat
    /\ Forall (fun pm => fst pm = panel) out
    /\ match fst (handleReceived received panel w) with
       | Return _ =>
           exists earlier,
             out = earlier
                     ++ [updatedConfig panel
                           (config (exec (handleReceived received panel) w))]
       | Throw _ =>
           forall l f h, ~ In (panel, ConfigUpdated (Some l) (Some f) (Some h)) out
       end.
Proof.
  switchX received; outcomes.
  all: rewrite <- ?app_assoc; cbn.
  all: try (exists []; rewrite app_nil_r; split; [reflexivity|]; cbn;
            split; [lia|]; split; [constructor|]; intros l f h []).
  all: eexists; (split; [reflexivity|]); cbn; (split; [lia|]);
    (split; [repeat constructor|]).
  all: first [ solve [exists []; reflexivity]
             | solve [eexists [_]; reflexivity]
             | solve [eexists [_; _]; reflexivity]
             | intros l f h Hin; cbn in Hin; intuition discriminate ].
Qed.

(** When no call fails, [getTokenCount] returns and the text is there
    where its length is read, the handler completes, and it does what
    [handleReceivedMessage] does on the message. *)
Lemma handleReceived_completes (received : Received) (panel : PanelId) (w : World) :
  (forall c store, failure c store = None) ->
  (callsGetTokenCount received = true ->
   exists n, tokenCountOf (textOf received) = Return n) ->
  (readsLength received = true -> textOf received <> None) ->
  fst (handleReceived received panel w) = Return tt.
Proof.
  intros Hf Ht Hl. unfold callsGetTokenCount, readsLength in *.
  switchX received;
    repeat match goal with
           | E : commandIs _ received = _ |- _ => rewrite ?E in Ht, Hl; clear E
           end;
    cbn [orb] in Ht, Hl;
    unfold exec, bindX, attempt, getTokenCountOf, lengthOf, liftX, retX, throwX;
    cbn; rewrite ?Hf; cbn; rewrite ?Hf; try reflexivity.
  all: try (destruct Ht as [n Hn]; [reflexivity|]; rewrite Hn; cbn).
  all: try (destruct (textOf received); [|exfalso; apply Hl; reflexivity]; cbn).
  all: rewrite ?Hf; reflexivity.
Qed.

Lemma case_asMessage (name : string) (received : Received) :
  case name (asMessage received) = commandIs name received.
Proof. reflexivity. Qed.

(** With helpers that return and a text where one is read,
    [handleReceived] is [handleReceivedMessage]. *)
Lemma handleReceived_is_handleReceivedMessage
      (received : Received) (panel : PanelId) (w : World) :
  (forall c store, failure c store = None) ->
  (forall t, tokenCountOf (Some t) = Return (getTokenCount t)) ->
  (callsGetTokenCount received = true \/ readsLength received = true ->
   textOf received <> None) ->
  handleReceived received panel w
  = (Return tt, exec (handleReceivedMessage (asMessage received) panel) w).
Proof.
  intros Hf Ht Hl. unfold callsGetTokenCount, readsLength in *.
  unfold handleReceivedMessage. rewrite !case_asMessage.
  switchX received;
    repeat match goal with
           | E : commandIs _ received = _ |- _ => rewrite ?E in Hl; clear E
           end;
    cbn [orb] in Hl;
    unfold exec, bindX, attempt, getTokenCountOf, lengthOf, liftX, retX, throwX;
    cbn; rewrite ?Hf; cbn; rewrite ?Hf; try reflexivity.
  all: destruct (textOf received);
    [| exfalso; apply Hl; [rewrite ?orb_true_r; auto | reflexivity]].
  all: cbn; rewrite ?Ht; cbn; rewrite ?Hf; reflexivity.
Qed.

(** C10: the handler catches nothing.  When handling a message
    completes, the messages posted end with a [configUpdated] that
    carries the compression level, the file types and the clipboard box
    height the configuration store then holds, whatever the command.
    When handling ends with an error, no [configUpdated] with the three
    values is posted at all.  Handling completes when no call into the
    store or a helper fails, [getTokenCount] returns where it is called,
    and the message has a text where the length of the text is read. *)
Theorem handler_posts_configUpdated_unless_it_throws
        (received : Received) (panel : PanelId) (w : World) :
  let result := fst (handleReceived received panel w) in
  let w' := exec (handleReceived received panel) w in
  let out := postedBy (handleReceived received panel) w in
  (result = Return tt ->
   exists earlier, out = earlier ++ [updatedConfig panel (config w')])
  /\ (forall error, result = Throw error ->
      forall l f h, ~ In (panel, ConfigUpdated (Some l) (Some f) (Some h)) out)
  /\ ((forall c store, failure c store = None) ->
      (callsGetTokenCount received = true ->
       exists n, tokenCountOf (textOf received) = Return n) ->
      (readsLength received = true -> textOf received <> None) ->
      result = Return tt).
Proof.
  intros result w' out.
  destruct (handleReceived_posts received panel w) as (o & Ho & _ & _ & Hend).
  assert (Hout : out = o) by (apply postedBy_app; exact Ho).
  fold result in Hend. fold w' in Hend. rewrite Hout.
  split; [|split].
  - intros Hr. rewrite Hr in Hend. exact Hend.
  - intros error Hr. rewrite Hr in Hend. exact Hend.
  - apply handleReceived_completes.
Qed.

End HandlerWithFailures.

(** C10 at a message: [countChars] with the text [hi] and helpers that
    return. *)
Lemma handler_posts_configUpdated_unless_it_throws_witness :
  fst (Extension.handleReceived (ext := Samples.externals)
         (failures := Samples.noFailures) (Samples.countCharsOf (lit "hi")) 0
         Samples.opened)
  = Return tt
  /\ exists earlier,
       Extension.postedBy
         (Extension.handleReceived (ext := Samples.externals)
            (failures := Samples.noFailures) (Samples.countCharsOf (lit "hi")) 0)
         Samples.opened
       = earlier
           ++ [(0, Extension.ConfigUpdated (Some (lit "none")) (Some [lit ".ts"])
                                           (Some 200%Z))].
Proof.
  pose proof (handler_posts_configUpdated_unless_it_throws
                (ext := Samples.externals) (failures := Samples.noFailures)
                (Samples.countCharsOf (lit "hi")) 0 Samples.opened)
    as (Hends & _ & Hcompletes).
  assert (Hr : fst (Extension.handleReceived (ext := Samples.externals)
                      (failures := Samples.noFailures)
                      (Samples.countCharsOf (lit "hi")) 0 Samples.opened)
               = Return tt).
  { apply Hcompletes.
    - intros c store. reflexivity.
    - intros H. discriminate H.
    - intros _. discriminate. }
  split; [exact Hr|]. exact (Hends Hr).
Defined.

(** C10 as stated fails.  The message [{ command: 'countChars' }] has no
    text: [message.text.length] throws, the handler posts nothing, and
    the [configUpdated] at its end is not reached.  The same happens
    when an awaited setter is rejected: on [setCompressionLevel] with a
    settings file that cannot be written nothing is posted either. *)
Lemma countChars_without_text_posts_nothing :
  Extension.handleReceived (ext := Samples.externals)
    (failures := Samples.noFailures) Samples.countCharsWithoutText 0 Samples.opened
  = (Throw (lit "TypeError: Cannot read properties of undefined"), Samples.opened)
  /\ Extension.postedBy
       (Extension.handleReceived (ext := Samples.externals)
          (failures := Samples.noFailures) Samples.countCharsWithoutText 0)
       Samples.opened
     = []
  /\ Extension.handleReceived (ext := Samples.externals)
       (failures := Samples.rejectedWrites) Samples.setCompressionLevelFull 0
       Samples.opened
     = (Throw (lit "EACCES"), Samples.opened)
  /\ Extension.postedBy
       (Extension.handleReceived (ext := Samples.externals)
          (failures := Samples.rejectedWrites) Samples.setCompressionLevelFull 0)
       Samples.opened
     = [].
Proof. repeat split. Qed.

(** ** The clipboard observer *)

Section Clipboard.
Import Extension.
Context {ext : Externals}.

(** Nothing is posted for content that has not changed, by either path. *)
Lemma unchanged_content_is_not_posted (content : JSString) :
  intervalCallback content content = (content, [])
  /\ firstRead content content = (content, []).
Proof.
  unfold intervalCallback, firstRead. now rewrite eqb_refl.
Qed.

(** The read that [clipBoardPolling] starts with forwards new content
    together with its token count and its character count. *)
Lemma firstRead_posts_counts (content lastKnown : JSString) :
  content <> lastKnown ->
  firstRead content lastKnown
  = (content, [UpdateClipboardDataBox content (Some (getTokenCount content))
                                      (Some (JS.length content))]).
Proof.
  intros H. unfold firstRead. apply eqb_neq in H. now rewrite H.
Qed.

(** The timer forwards new content alone. *)
Lemma intervalCallback_posts_content (content lastKnown : JSString) :
  content <> lastKnown ->
  intervalCallback content lastKnown
  = (content, [UpdateClipboardDataBox content None None]).
Proof.
  intros H. unfold intervalCallback. apply eqb_neq in H. now rewrite H.
Qed.

(** C3 at an input: the clipboard is empty when polling starts and holds
    [hello] when the timer fires.  The observer detects the new content
    and posts it, and the message carries neither a token count nor a
    character count. *)
Theorem interval_forwards_content_without_counts :
  clipBoardPolling [] [lit "hello"]
  = [UpdateClipboardDataBox (lit "hello") None None].
Proof. reflexivity. Qed.

End Clipboard.

(** ** Loading the HTML of the webview *)

Section WebviewContent.
Variable asUri : Path -> JSString.
Variable extensionDir : Path.
Variable message : JSString.

(** [composeWebViewContent] catches the failed read. *)
Lemma composeWebViewContent_falls_back
      (getTokenCount : JSString -> Z)
      (init : ConfigManager.Store -> ConfigManager.Store) :
  Extension.composeWebViewContent
    (ext := Extension.Build_Externals getTokenCount init
              (fun _ => ReadError message) asUri extensionDir)
  = lit "Error loading webview content.".
Proof. reflexivity. Qed.

(** [getWebviewContent] of the JavaScript entry point catches it too and
    returns a page that shows the error. *)
Lemma getWebviewContent_js_falls_back :
  ExtensionJs.getWebviewContent
    (ext := ExtensionJs.Build_Externals (fun _ => ReadError message) asUri extensionDir)
  = ExtensionJs.errorPage message.
Proof. reflexivity. Qed.

(** C5 at an input: when [dist/webview.html] cannot be read,
    [getWebviewContent] of [src/extension.ts] returns no fallback text:
    the error of the read leaves the function as an exception. *)
Theorem getWebviewContent_ts_throws :
  ExtensionTs.getWebviewContent
    (ext := ExtensionTs.Build_Externals (fun _ => ReadError message) asUri extensionDir)
  = Throw message.
Proof. reflexivity. Qed.

(** The [openGui] command then fails with that error, after it has
    opened the panel. *)
Lemma openGui_fails_with_panel_open (ps : Panels) :
  ExtensionTs.openGui
    (ext := ExtensionTs.Build_Externals (fun _ => ReadError message) asUri extensionDir)
    ps
  = (Throw message, snd (Host.createWebviewPanel ps)).
Proof. reflexivity. Qed.

End WebviewContent.

(** [openGui] keeps no reference to its panel: every call opens one more,
    whether the HTML could be loaded or not. *)
Lemma openGui_opens_a_panel_each_time (ext : ExtensionTs.Externals) (ps : Panels) :
  live (snd (ExtensionTs.openGui ps)) = live ps ++ [nextId ps].
Proof.
  unfold ExtensionTs.openGui. cbn.
  destruct ExtensionTs.getWebviewContent; reflexivity.
Qed.

(** ** The extract command *)

Section ExtractCommand.
Import ExtensionJs.

Lemma walk_succeeds (ignoreSet : list JSString) (config : Engine.ExtractionConfig)
      (resolve : JSString -> option Engine.FsEntry) (rootPaths : list JSString) :
  (exists p, In p rootPaths /\ resolve p <> None) ->
  exists nodes, Engine.walk ignoreSet config resolve rootPaths = inl nodes.
Proof.
  intros (p & Hin & Hres). unfold Engine.walk.
  destruct (flat_map _ rootPaths) as [|e es] eqn:E.
  - exfalso. destruct (resolve p) as [e|] eqn:Ep; [|congruence].
    assert (Hine : In e (flat_map
              (fun p => match resolve p with Some e => [e] | None => [] end)
              rootPaths)).
    { apply in_flat_map. exists p. split; [assumption|]. rewrite Ep. now left. }
    rewrite E in Hine. contradiction.
  - eexists. reflexivity.
Qed.

Lemma walk_fails_without_valid_root
      (ignoreSet : list JSString) (config : Engine.ExtractionConfig)
      (resolve : JSString -> option Engine.FsEntry) (rootPaths : list JSString) :
  (forall p, In p rootPaths -> resolve p = None) ->
  Engine.walk ignoreSet config resolve rootPaths = inr Engine.EmptySelection.
Proof.
  intros H. unfold Engine.walk.
  replace (flat_map _ rootPaths) with (@nil Engine.FsEntry); [reflexivity|].
  symmetry. induction rootPaths as [|p ps IH]; [reflexivity|].
  simpl. rewrite (H p) by now left. simpl. apply IH.
  intros q Hq. apply H. now right.
Qed.

(** C4: called with neither [uris] nor [uri], the command shows the
    warning and does nothing else, so the engine is not invoked.  In
    every other case the command shows no warning and hands the
    selection ([uris], or [uri] alone when there are no [uris]) to the
    engine, whose walk does not fail as soon as one of these roots is
    valid. *)
Theorem extractCode_signals_empty_selection
        (uri : option Uri) (uris : option (list Uri)) (w : World) :
  let after := calls (exec (extractCodeCommand uri uris) w) in
  (uri = None -> uris = None \/ uris = Some [] ->
     after = calls w
               ++ [ShowWarningMessage (lit "No folders selected for extraction.")])
  /\ (uri <> None \/ (exists u l, uris = Some (u :: l)) ->
      exists roots,
        roots <> []
        /\ after = calls w ++ [ExtractCode roots]
        /\ (forall u l, uris = Some (u :: l) -> roots = u :: l)
        /\ (forall v, uri = Some v -> uris = None \/ uris = Some [] -> roots = [v])
        /\ forall ignoreSet config resolve,
             (exists p, In p roots /\ resolve p <> None) ->
             exists nodes, Engine.walk ignoreSet config resolve roots = inl nodes).
Proof.
  intros after. subst after. split.
  - intros -> [-> | ->]; reflexivity.
  - intros H.
    assert (Hcases :
      (exists u l, uris = Some (u :: l))
      \/ (exists v, uri = Some v /\ (uris = None \/ uris = Some []))).
    { destruct uris as [[|u l]|]; [right|left|right]; eauto;
        destruct uri as [v|]; eauto;
        destruct H as [H | (u & l & H)]; congruence. }
    destruct Hcases as [(u & l & ->) | (v & -> & Huris)].
    + exists (u :: l). split; [discriminate|]. split; [reflexivity|].
      split; [intros u' l' E; now inversion E|].
      split; [intros v _ [E|E]; discriminate E|].
      intros. now apply walk_succeeds.
    + exists [v]. split; [discriminate|].
      split; [destruct Huris as [-> | ->]; reflexivity|].
      split; [intros u l E; destruct Huris as [E'|E']; rewrite E' in E; discriminate E|].
      split; [intros v' E _; now inversion E|].
      intros. now apply walk_succeeds.
Qed.

End ExtractCommand.

(** C4 at two calls: one with neither [uris] nor [uri], one with a
    folder as [uri]. *)
Lemma extractCode_signals_empty_selection_witness :
  (@None ExtensionJs.Uri = None
   /\ (@None (list ExtensionJs.Uri) = None \/ @None (list ExtensionJs.Uri) = Some [])
   /\ ExtensionJs.calls
        (ExtensionJs.exec (ExtensionJs.extractCodeCommand None None)
                          ExtensionJs.activated)
      = [ExtensionJs.ShowWarningMessage (lit "No folders selected for extraction.")])
  /\ (Some (lit "/work/src") <> None
      /\ exists roots,
           roots <> []
           /\ ExtensionJs.calls
                (ExtensionJs.exec
                   (ExtensionJs.extractCodeCommand (Some (lit "/work/src")) None)
                   ExtensionJs.activated)
              = [ExtensionJs.ExtractCode roots]).
Proof.
  split.
  - split; [reflexivity|]. split; [left; reflexivity|].
    apply (proj1 (extractCode_signals_empty_selection None None ExtensionJs.activated));
      [reflexivity | left; reflexivity].
  - split; [discriminate|].
    pose proof (extractCode_signals_empty_selection
                  (Some (lit "/work/src")) None ExtensionJs.activated) as [_ H].
    destruct H as (roots & Hne & Hcalls & _); [left; discriminate|].
    exists roots. split; [exact Hne | exact Hcalls].
Defined.

(** ** One webview panel *)

Lemma close_the_panel (p q : PanelId) (ps : Panels) :
  live ps = [q] -> isLive p ps = true -> live (Host.close p ps) = [].
Proof.
  unfold isLive, Host.close. intros ->. cbn.
  destruct (Nat.eqb p q); [reflexivity|discriminate].
Qed.

Lemma nothing_to_close (p : PanelId) (ps : Panels) :
  live ps = [] -> isLive p ps = false.
Proof. unfold isLive. now intros ->. Qed.

Section PanelsTs.
Import Extension.
Context {ext : Externals}.

Lemma handler_keeps_panels (message : Message) (panel : PanelId) (w : World) :
  let w' := exec (handleReceivedMessage message panel) w in
  panels w' = panels w /\ globalPanel w' = globalPanel w.
Proof.
  unfold handleReceivedMessage.
  repeat match goal with
         | |- context [if case ?name message then _ else _] =>
             destruct (case name message)
         end; cbn; split; reflexivity.
Qed.

Lemma open_in_step (w : World) :
  inStep (globalPanel w) (panels w) ->
  let w' := exec openWebviewAndExplorerSidebar w in
  inStep (globalPanel w') (panels w')
  /\ match globalPanel w with
     | Some p => panels w' = Host.reveal p (panels w) /\ globalPanel w' = Some p
     | None => live (panels w') = [nextId (panels w)]
               /\ nextId (panels w') = S (nextId (panels w))
               /\ globalPanel w' = Some (nextId (panels w))
     end.
Proof.
  unfold inStep, openWebviewAndExplorerSidebar, exec, bind, getGlobalPanel.
  destruct (globalPanel w) as [p|] eqn:E; cbn; intros H.
  - rewrite E. auto.
  - rewrite H. cbn. auto.
Qed.

Lemma handle_in_step (e : Event) (w : World) :
  inStep (globalPanel w) (panels w) ->
  let w' := exec (handle e) w in inStep (globalPanel w') (panels w').
Proof.
  intros H. destruct e as [|visible|p|p visible|message|p]; cbn [handle].
  - apply (open_in_step w H).
  - destruct visible; [apply (open_in_step w H)|exact H].
  - unfold closePanel, exec, inStep in *.
    destruct (isLive p (panels w)) eqn:El; [|exact H].
    cbn. destruct (globalPanel w) as [q|].
    + apply (close_the_panel p q); assumption.
    + rewrite (nothing_to_close p _ H) in El. discriminate.
  - unfold exec. destruct (isLive p (panels w)); [|exact H].
    destruct visible; exact H.
  - unfold onDidReceiveMessage, exec, bind, getGlobalPanel.
    destruct (globalPanel w) as [q|] eqn:E.
    + destruct (handler_keeps_panels message q w) as [Hp Hg].
      unfold exec in Hp, Hg. cbn [snd]. rewrite Hp, Hg, ?E. exact H.
    + cbn. rewrite ?E. exact H.
  - unfold htmlComposed, exec.
    destruct (existsb (Nat.eqb p) (loading w)); exact H.
Qed.

Lemma run_in_step (events : list Event) (w : World) :
  inStep (globalPanel w) (panels w) ->
  inStep (globalPanel (run events w)) (panels (run events w)).
Proof.
  revert w. induction events as [|e events IH]; intros w H; [exact H|].
  cbn [run]. apply IH. now apply handle_in_step.
Qed.

End PanelsTs.

Section PanelsJs.
Import ExtensionJs.
Context {ext : Externals}.

Lemma showWebview_in_step (w : World) :
  inStep (currentPanel w) (panels w) ->
  let w' := exec showWebview w in
  inStep (currentPanel w') (panels w')
  /\ match currentPanel w with
     | Some p => panels w' = Host.reveal p (panels w) /\ currentPanel w' = Some p
     | None => live (panels w') = [nextId (panels w)]
               /\ nextId (panels w') = S (nextId (panels w))
               /\ currentPanel w' = Some (nextId (panels w))
     end.
Proof.
  unfold inStep, showWebview, exec, bind, getCurrentPanel.
  destruct (currentPanel w) as [p|] eqn:E; cbn; intros H.
  - rewrite E. auto.
  - rewrite H. cbn. auto.
Qed.

Lemma openExplorer_in_step (w : World) :
  inStep (currentPanel w) (panels w) ->
  let w' := exec openExplorerCommand w in
  inStep (currentPanel w') (panels w')
  /\ match currentPanel w with
     | Some p => panels w' = Host.reveal p (panels w) /\ currentPanel w' = Some p
     | None => live (panels w') = [nextId (panels w)]
               /\ nextId (panels w') = S (nextId (panels w))
               /\ currentPanel w' = Some (nextId (panels w))
     end.
Proof.
  intros H.
  apply (showWebview_in_step
           (exec (call (ExecuteCommand (lit "workbench.view.explorer"))) w) H).
Qed.

Lemma handle_js_in_step (e : Event) (w : World) :
  inStep (currentPanel w) (panels w) ->
  let w' := exec (handle e) w in inStep (currentPanel w') (panels w').
Proof.
  intros H. destruct e as [uri uris|  |visible|p]; cbn [handle].
  - unfold extractCodeCommand.
    destruct uris as [[|u l]|]; destruct uri; exact H.
  - apply (openExplorer_in_step _ H).
  - destruct visible; [apply (openExplorer_in_step _ H)|exact H].
  - unfold closePanel, exec, inStep in *.
    destruct (isLive p (panels w)) eqn:El; [|exact H].
    cbn. destruct (currentPanel w) as [q|].
    + apply (close_the_panel p q); assumption.
    + rewrite (nothing_to_close p _ H) in El. discriminate.
Qed.

Lemma run_js_in_step (events : list Event) (w : World) :
  inStep (currentPanel w) (panels w) ->
  inStep (currentPanel (run events w)) (panels (run events w)).
Proof.
  revert w. induction events as [|e events IH]; intros w H; [exact H|].
  cbn [run]. apply IH. now apply handle_js_in_step.
Qed.

End PanelsJs.

(** C9: however the commands, the closing of panels and the messages
    follow each other, at most one panel is open, and it is the one the
    extension refers to; opening the webview then reveals that panel and
    creates none, or, when there is none, creates exactly one.  This holds
    for [openWebviewAndExplorerSidebar] and for [showWebview] behind
    [syntaxExtractor.openExplorer]. *)
Theorem at_most_one_webview_panel :
  (forall (ext : Extension.Externals) (store : ConfigManager.Store)
          (events : list Extension.Event),
      let w := Extension.run events (Extension.activated store) in
      let w' := Extension.exec Extension.openWebviewAndExplorerSidebar w in
      (List.length (live (Extension.panels w)) <= 1)%nat
      /\ inStep (Extension.globalPanel w) (Extension.panels w)
      /\ match Extension.globalPanel w with
         | Some p =>
             Extension.panels w' = Host.reveal p (Extension.panels w)
             /\ Extension.globalPanel w' = Some p
         | None =>
             live (Extension.panels w') = [nextId (Extension.panels w)]
             /\ nextId (Extension.panels w') = S (nextId (Extension.panels w))
             /\ Extension.globalPanel w' = Some (nextId (Extension.panels w))
         end)
  /\ (forall (ext : ExtensionJs.Externals) (events : list ExtensionJs.Event),
        let w := ExtensionJs.run events ExtensionJs.activated in
        let w' := ExtensionJs.exec ExtensionJs.openExplorerCommand w in
        (List.length (live (ExtensionJs.panels w)) <= 1)%nat
        /\ inStep (ExtensionJs.currentPanel w) (ExtensionJs.panels w)
        /\ match ExtensionJs.currentPanel w with
           | Some p =>
               ExtensionJs.panels w' = Host.reveal p (ExtensionJs.panels w)
               /\ ExtensionJs.currentPanel w' = Some p
           | None =>
               live (ExtensionJs.panels w') = [nextId (ExtensionJs.panels w)]
               /\ nextId (ExtensionJs.panels w') = S (nextId (ExtensionJs.panels w))
               /\ ExtensionJs.currentPanel w' = Some (nextId (ExtensionJs.panels w))
           end).
Proof.
  split.
  - intros ext store events w w'.
    assert (H : inStep (Extension.globalPanel w) (Extension.panels w)).
    { apply run_in_step. reflexivity. }
    split; [|split; [exact H|]].
    + unfold inStep in H. rewrite H.
      destruct (Extension.globalPanel w); cbn; lia.
    + apply (open_in_step w H).
  - intros ext events w w'.
    assert (H : inStep (ExtensionJs.currentPanel w) (ExtensionJs.panels w)).
    { apply run_js_in_step. reflexivity. }
    split; [|split; [exact H|]].
    + unfold inStep in H. rewrite H.
      destruct (ExtensionJs.currentPanel w); cbn; lia.
    + apply (openExplorer_in_step w H).
Qed.

(** ** The counter *)

Section CounterProperties.
Import Engine.
Context {seg : Segmentation}.

Lemma tokensFrom_nonneg (s : JSString) :
  forall inWord, (0 <= tokensFrom inWord s)%Z.
Proof.
  induction s as [|u s IH]; intros inWord; cbn [tokensFrom]; [lia|].
  destruct (isWhitespace u); [apply IH|].
  destruct (isPunctuation u).
  - specialize (IH false). lia.
  - specialize (IH true). destruct inWord; lia.
Qed.

(** More text never takes a token away, whatever state the segmentation
    is in. *)
Lemma tokensFrom_app (s appended : JSString) :
  forall inWord, (tokensFrom inWord s <= tokensFrom inWord (s ++ appended))%Z.
Proof.
  induction s as [|u s IH]; intros inWord; cbn [tokensFrom app].
  - apply tokensFrom_nonneg.
  - destruct (isWhitespace u); [apply IH|].
    destruct (isPunctuation u).
    + specialize (IH false). lia.
    + specialize (IH true). lia.
Qed.

(** C6: the token count of a text with something appended is at least
    the token count of the text, and the empty text has token count 0
    and character count 0. *)
Theorem tokenCount_monotonic (text appended : JSString) :
  (tokenCount (count text) <= tokenCount (count (text ++ appended)))%Z
  /\ tokenCount (count []) = 0%Z
  /\ charCount (count []) = 0%Z.
Proof.
  split; [|split; reflexivity].
  cbn [count tokenCount]. apply tokensFrom_app.
Qed.

End CounterProperties.

(** ** Compression *)

Section Lines.
Import Engine.

Lemma splitLines_nonempty (text : JSString) : splitLines text <> [].
Proof.
  destruct text as [|u text]; cbn [splitLines]; [discriminate|].
  destruct (u =? newline)%N; [discriminate|].
  destruct (splitLines text); discriminate.
Qed.

Lemma splitLines_oneLine (text : JSString) : Forall oneLine (splitLines text).
Proof.
  induction text as [|u text IH]; cbn [splitLines].
  - constructor; [|constructor]. intros [].
  - destruct (N.eqb_spec u newline) as [->|Hu].
    + constructor; [intros []|exact IH].
    + destruct (splitLines text) as [|line lines].
      * constructor; [|constructor]. intros [E|[]]. congruence.
      * inversion IH as [|? ? Hline Hlines]; subst.
        constructor; [|exact Hlines]. intros [E|Hin]; [congruence|].
        now apply Hline.
Qed.

Lemma splitLines_line (line : JSString) :
  oneLine line -> splitLines line = [line].
Proof.
  unfold oneLine. induction line as [|u line IH]; intros H; [reflexivity|].
  cbn [splitLines]. destruct (N.eqb_spec u newline) as [->|Hu].
  - exfalso. apply H. now left.
  - rewrite IH; [reflexivity|]. intros Hin. apply H. now right.
Qed.

Lemma splitLines_app (line rest : JSString) :
  oneLine line ->
  splitLines (line ++ newline :: rest) = line :: splitLines rest.
Proof.
  unfold oneLine. induction line as [|u line IH]; intros H.
  - cbn [app splitLines]. now rewrite N.eqb_refl.
  - cbn [app splitLines]. destruct (N.eqb_spec u newline) as [->|Hu].
    + exfalso. apply H. now left.
    + rewrite IH; [reflexivity|]. intros Hin. apply H. now right.
Qed.

(** Splitting what has been joined gives the lines back. *)
Lemma splitLines_joinLines (lines : list JSString) :
  lines <> [] -> Forall oneLine lines -> splitLines (joinLines lines) = lines.
Proof.
  induction lines as [|line lines IH]; intros Hne Hall; [congruence|].
  inversion Hall as [|? ? Hline Hrest]; subst.
  destruct lines as [|line' lines].
  - cbn [joinLines]. now apply splitLines_line.
  - change (joinLines (line :: line' :: lines))
      with (line ++ newline :: joinLines (line' :: lines)).
    rewrite splitLines_app by assumption.
    rewrite IH; [reflexivity|discriminate|assumption].
Qed.

(** *** Trailing white space *)

Lemma trimStart_idempotent (line : JSString) :
  trimStart (trimStart line) = trimStart line.
Proof.
  induction line as [|u line IH]; [reflexivity|].
  cbn [trimStart]. destruct (isBlankChar u) eqn:E; [exact IH|].
  cbn [trimStart]. now rewrite E.
Qed.

Lemma trimStart_incl (line : JSString) (u : CodeUnit) :
  In u (trimStart line) -> In u line.
Proof.
  induction line as [|v line IH]; [tauto|].
  cbn [trimStart]. destruct (isBlankChar v); [|tauto].
  intros H. right. now apply IH.
Qed.

Lemma trimEnd_idempotent (line : JSString) :
  trimEnd (trimEnd line) = trimEnd line.
Proof.
  unfold trimEnd. now rewrite rev_involutive, trimStart_idempotent.
Qed.

Lemma trimEnd_oneLine (line : JSString) : oneLine line -> oneLine (trimEnd line).
Proof.
  unfold oneLine, trimEnd. intros H Hin. apply H.
  apply in_rev in Hin. apply trimStart_incl in Hin. now apply in_rev.
Qed.

Lemma map_trimEnd_trimmed (lines : list JSString) :
  Forall trimmed (map trimEnd lines).
Proof.
  induction lines; constructor; [apply trimEnd_idempotent|assumption].
Qed.

Lemma map_trimEnd_fixed (lines : list JSString) :
  Forall trimmed lines -> map trimEnd lines = lines.
Proof.
  induction 1 as [|line lines H _ IH]; [reflexivity|].
  cbn [map]. now rewrite H, IH.
Qed.

(** *** Blank lines *)

Lemma collapse_keeps (P : JSString -> Prop) (lines : list JSString) :
  Forall P lines -> forall afterBlank, Forall P (collapseBlankLines afterBlank lines).
Proof.
  induction 1 as [|line lines H _ IH]; intros afterBlank; [constructor|].
  cbn [collapseBlankLines].
  destruct (isBlankLine line), afterBlank; auto.
Qed.

Lemma collapse_idempotent (lines : list JSString) :
  forall afterBlank,
    collapseBlankLines afterBlank (collapseBlankLines afterBlank lines)
    = collapseBlankLines afterBlank lines.
Proof.
  induction lines as [|line lines IH]; intros afterBlank; [reflexivity|].
  cbn [collapseBlankLines]. destruct (isBlankLine line) eqn:E.
  - destruct afterBlank; [apply IH|].
    cbn [collapseBlankLines]. rewrite E. now rewrite IH.
  - cbn [collapseBlankLines]. rewrite E. now rewrite IH.
Qed.

End Lines.

Section CompressionProperties.
Import Engine.

Lemma tidyLines_idempotent (lines : list JSString) :
  tidyLines (tidyLines lines) = tidyLines lines.
Proof.
  unfold tidyLines. rewrite map_trimEnd_fixed.
  - apply collapse_idempotent.
  - apply collapse_keeps. apply map_trimEnd_trimmed.
Qed.

Lemma tidyLines_oneLine (lines : list JSString) :
  Forall oneLine lines -> Forall oneLine (tidyLines lines).
Proof.
  intros H. apply collapse_keeps.
  induction H; constructor; [now apply trimEnd_oneLine|assumption].
Qed.

Lemma tidyLines_nonempty (lines : list JSString) :
  lines <> [] -> tidyLines lines <> [].
Proof.
  destruct lines as [|line lines]; [congruence|]. intros _.
  unfold tidyLines. cbn [map collapseBlankLines].
  destruct (isBlankLine (trimEnd line)); discriminate.
Qed.

(** Light compression leaves its own result alone. *)
Lemma light_idempotent (text : JSString) : light (light text) = light text.
Proof.
  unfold light. rewrite splitLines_joinLines.
  - now rewrite tidyLines_idempotent.
  - apply tidyLines_nonempty, splitLines_nonempty.
  - apply tidyLines_oneLine, splitLines_oneLine.
Qed.

(** *** Texts without comments *)

Lemma commentFree_cons (u : CodeUnit) (text : JSString) :
  commentFree (u :: text) = true ->
  commentFree text = true.
Proof. cbn [commentFree]. intros H. now apply andb_true_iff in H as [_ H]. Qed.

Lemma commentFree_other (u : CodeUnit) (text : JSString) :
  (u =? slash)%N = false ->
  commentFree (u :: text) = commentFree text.
Proof.
  intros H. cbn [commentFree]. rewrite H. cbn. now destruct text.
Qed.

Lemma stripComments_emits (u : CodeUnit) (text : JSString) :
  (u =? slash)%N = false ->
  stripComments InCode (u :: text) = u :: stripComments InCode text.
Proof.
  intros H. cbn [stripComments]. rewrite H. cbn. now destruct text.
Qed.


Lemma stripComments_code (u v : CodeUnit) (rest : JSString) :
  stripComments InCode (u :: v :: rest)
  = if (u =? slash)%N && (v =? slash)%N then stripComments InLineComment rest
    else if (u =? slash)%N && (v =? star)%N then stripComments InBlockComment rest
    else u :: stripComments InCode (v :: rest).
Proof. reflexivity. Qed.

Lemma stripComments_block (u v : CodeUnit) (rest : JSString) :
  stripComments InBlockComment (u :: v :: rest)
  = if (u =? star)%N && (v =? slash)%N then stripComments InCode rest
    else stripComments InBlockComment (v :: rest).
Proof. reflexivity. Qed.

Lemma commentFree_pair (u v : CodeUnit) (text : JSString) :
  commentFree (u :: v :: text)
  = negb ((u =? slash)%N && ((v =? slash)%N || (v =? star)%N))
    && commentFree (v :: text).
Proof. reflexivity. Qed.

(** What the scan lets through holds no comment. *)
Lemma stripComments_commentFree (n : nat) :
  forall text state,
    (List.length text <= n)%nat -> commentFree (stripComments state text) = true.
Proof.
  induction n as [|n IH]; intros text state Hn.
  - destruct text; [now destruct state|cbn in Hn; lia].
  - destruct text as [|u rest]; [now destruct state|].
    cbn [List.length] in Hn. destruct state.
    + destruct rest as [|v rest']; [reflexivity|].
      cbn [List.length] in Hn. rewrite stripComments_code.
      destruct ((u =? slash)%N && (v =? slash)%N) eqn:El; [apply IH; lia|].
      destruct ((u =? slash)%N && (v =? star)%N) eqn:Eb; [apply IH; lia|].
      destruct (u =? slash)%N eqn:Eu.
      * cbn [andb] in El, Eb.
        rewrite (stripComments_emits v rest' El), commentFree_pair.
        rewrite Eu, El, Eb. cbn [andb orb negb].
        rewrite <- (stripComments_emits v rest' El).
        apply IH. cbn [List.length]. lia.
      * rewrite commentFree_other by assumption.
        apply (IH (v :: rest') InCode). cbn [List.length]. lia.
    + cbn [stripComments]. destruct (u =? newline)%N eqn:E.
      * rewrite commentFree_other.
        -- apply IH. lia.
        -- apply N.eqb_eq in E. subst u. reflexivity.
      * apply IH. lia.
    + destruct rest as [|v rest']; [reflexivity|].
      cbn [List.length] in Hn. rewrite stripComments_block.
      destruct ((u =? star)%N && (v =? slash)%N); apply IH; cbn [List.length]; lia.
Qed.

(** A text without comments passes the scan as it is. *)
Lemma stripComments_fixed (text : JSString) :
  commentFree text = true -> stripComments InCode text = text.
Proof.
  induction text as [|u rest IH]; intros H; [reflexivity|].
  destruct rest as [|v rest']; [reflexivity|].
  rewrite commentFree_pair in H. apply andb_true_iff in H as [Hm Hrest].
  rewrite stripComments_code.
  apply negb_true_iff in Hm.
  destruct (u =? slash)%N; cbn [andb] in *.
  - apply orb_false_iff in Hm as [-> ->]. now rewrite IH.
  - now rewrite IH.
Qed.

Lemma commentFree_prefix (a b : JSString) :
  commentFree (a ++ b) = true -> commentFree a = true.
Proof.
  induction a as [|u a IH]; intros H; [reflexivity|].
  destruct a as [|v a].
  - reflexivity.
  - cbn [app] in *. rewrite commentFree_pair in *.
    apply andb_true_iff in H as [Hm H]. rewrite Hm. now apply IH.
Qed.

Lemma commentFree_join (a b : JSString) :
  commentFree a = true -> commentFree b = true ->
  commentFree (a ++ newline :: b) = true.
Proof.
  intros Ha Hb. induction a as [|u a IH].
  - cbn [app]. now rewrite commentFree_other.
  - destruct a as [|v a].
    + cbn [app]. rewrite commentFree_pair. cbn [app] in IH.
      rewrite IH by reflexivity.
      replace ((newline =? slash)%N || (newline =? star)%N) with false by reflexivity.
      now rewrite andb_false_r.
    + cbn [app] in *. rewrite commentFree_pair in *.
      apply andb_true_iff in Ha as [Hm Ha]. rewrite Hm. now apply IH.
Qed.

Lemma commentFree_joinLines (lines : list JSString) :
  Forall (fun line => commentFree line = true) lines ->
  commentFree (joinLines lines) = true.
Proof.
  induction 1 as [|line lines H _ IH]; [reflexivity|].
  destruct lines as [|line' lines]; [exact H|].
  change (joinLines (line :: line' :: lines))
    with (line ++ newline :: joinLines (line' :: lines)).
  now apply commentFree_join.
Qed.

Lemma commentFree_splitLines (text : JSString) :
  commentFree text = true ->
  Forall (fun line => commentFree line = true) (splitLines text).
Proof.
  induction text as [|u text IH]; intros H.
  - constructor; [reflexivity|constructor].
  - pose proof (IH (commentFree_cons u text H)) as Hrest.
    cbn [splitLines]. destruct (u =? newline)%N eqn:Eu.
    + constructor; [reflexivity|exact Hrest].
    + destruct text as [|v text'].
      * cbn. constructor; [reflexivity|constructor].
      * rewrite commentFree_pair in H. apply andb_true_iff in H as [Hm _].
        cbn [splitLines] in *. destruct (v =? newline)%N eqn:Ev.
        -- inversion Hrest; subst. constructor; [reflexivity|assumption].
        -- destruct (splitLines text') as [|line lines].
           ++ inversion Hrest; subst. constructor; [|assumption].
              rewrite commentFree_pair, Hm. reflexivity.
           ++ inversion Hrest; subst. constructor; [|assumption].
              rewrite commentFree_pair, Hm. assumption.
Qed.

Lemma trimStart_suffix (line : JSString) :
  exists blanks, line = blanks ++ trimStart line.
Proof.
  induction line as [|u line [blanks IH]]; [now exists []|].
  cbn [trimStart]. destruct (isBlankChar u).
  - exists (u :: blanks). cbn. now rewrite <- IH.
  - now exists [].
Qed.

Lemma trimEnd_prefix (line : JSString) :
  exists blanks, line = trimEnd line ++ blanks.
Proof.
  unfold trimEnd. destruct (trimStart_suffix (rev line)) as [blanks H].
  exists (rev blanks). rewrite <- rev_app_distr, <- H. now rewrite rev_involutive.
Qed.

Lemma tidyLines_commentFree (lines : list JSString) :
  Forall (fun line => commentFree line = true) lines ->
  Forall (fun line => commentFree line = true) (tidyLines lines).
Proof.
  intros H. apply collapse_keeps.
  induction H as [|line lines Hl _ IH]; constructor; [|assumption].
  destruct (trimEnd_prefix line) as [blanks E].
  rewrite E in Hl. now apply commentFree_prefix in Hl.
Qed.

(** Light compression brings no comment into a text that has none. *)
Lemma light_commentFree (text : JSString) :
  commentFree text = true -> commentFree (light text) = true.
Proof.
  intros H. apply commentFree_joinLines, tidyLines_commentFree.
  now apply commentFree_splitLines.
Qed.

Lemma compress_idempotent (text : JSString) (level : CompressionLevel) :
  compress (compress text level) level = compress text level.
Proof.
  destruct level; cbn [compress]; [reflexivity|apply light_idempotent|].
  rewrite stripComments_fixed; [apply light_idempotent|].
  apply light_commentFree.
  apply (stripComments_commentFree (List.length text)). apply le_n.
Qed.

(** C7: at the levels Light and Full, compressing a compressed text
    gives it back unchanged. *)
Theorem compression_is_idempotent (text : JSString) :
  compress (compress text Light) Light = compress text Light
  /\ compress (compress text Full) Full = compress text Full.
Proof. split; apply compress_idempotent. Qed.

End CompressionProperties.

(** ** The order of the tree *)

Section Alphabetical.
Import Engine.

Lemma alphabetical_total (a b : JSString) :
  alphabetical a b = false -> alphabetical b a = true.
Proof.
  revert b. induction a as [|x a IH]; intros [|y b]; cbn [alphabetical];
    try congruence.
  destruct (N.ltb_spec x y), (N.ltb_spec y x); try congruence; try lia.
  apply IH.
Qed.

Lemma alphabetical_trans (a b c : JSString) :
  alphabetical a b = true -> alphabetical b c = true -> alphabetical a c = true.
Proof.
  revert b c. induction a as [|x a IH]; intros [|y b] [|z c];
    cbn [alphabetical]; try congruence.
  destruct (N.ltb_spec x y), (N.ltb_spec y x), (N.ltb_spec y z),
           (N.ltb_spec z y), (N.ltb_spec x z), (N.ltb_spec z x);
    try congruence; try lia.
  apply IH.
Qed.

Lemma precedes_total (a b : TreeNode) :
  precedes a b = false -> precedes b a = true.
Proof.
  unfold precedes. destruct (isDirectory a), (isDirectory b);
    try congruence; apply alphabetical_total.
Qed.

Lemma precedes_trans (a b c : TreeNode) :
  precedes a b = true -> precedes b c = true -> precedes a c = true.
Proof.
  unfold precedes. destruct (isDirectory a), (isDirectory b), (isDirectory c);
    try congruence; apply alphabetical_trans.
Qed.

Lemma precedes_before (a b : TreeNode) : precedes a b = true -> before a b.
Proof.
  unfold precedes, before.
  destruct (isDirectory a), (isDirectory b); intros H; split; congruence.
Qed.

Lemma insertChild_keeps (P : TreeNode -> Prop) (n : TreeNode) (l : list TreeNode) :
  P n -> Forall P l -> Forall P (insertChild n l).
Proof.
  intros Hn. induction 1 as [|m l Hm Hl IH]; cbn [insertChild].
  - constructor; [assumption|constructor].
  - destruct (precedes n m); repeat constructor; assumption.
Qed.

Lemma sortChildren_keeps (P : TreeNode -> Prop) (l : list TreeNode) :
  Forall P l -> Forall P (sortChildren l).
Proof.
  induction 1; cbn [sortChildren]; [constructor|].
  now apply insertChild_keeps.
Qed.

Lemma insertChild_sorted (n : TreeNode) (l : list TreeNode) :
  StronglySorted (fun a b => precedes a b = true) l ->
  StronglySorted (fun a b => precedes a b = true) (insertChild n l).
Proof.
  induction 1 as [|m l Hs IH Hm]; cbn [insertChild].
  - constructor; constructor.
  - destruct (precedes n m) eqn:E.
    + constructor; [constructor; assumption|].
      constructor; [assumption|].
      eapply Forall_impl; [|exact Hm].
      intros c Hc. now apply (precedes_trans n m c).
    + constructor; [assumption|].
      apply insertChild_keeps; [|assumption].
      now apply precedes_total.
Qed.

Lemma sortChildren_sorted (l : list TreeNode) :
  StronglySorted before (sortChildren l).
Proof.
  assert (H : StronglySorted (fun a b => precedes a b = true) (sortChildren l)).
  { induction l; cbn [sortChildren]; [constructor|].
    now apply insertChild_sorted. }
  induction H as [|m l' _ IH Hm]; constructor; [assumption|].
  eapply Forall_impl; [|exact Hm]. apply precedes_before.
Qed.

End Alphabetical.

Section WalkProperties.
Import Engine.
Variable ignoreSet : list JSString.
Variable config : ExtractionConfig.

(** Induction on what is on disk, with the entries of a directory. *)
Lemma FsEntry_induction (P : FsEntry -> Prop) :
  (forall name, P (FsFile name)) ->
  (forall name entries, Forall P entries -> P (FsDir name entries)) ->
  (forall name, P (FsUnreadable name)) ->
  forall e, P e.
Proof.
  intros Hfile Hdir Hunreadable.
  exact (fix F (e : FsEntry) : P e :=
           match e with
           | FsFile name => Hfile name
           | FsDir name entries =>
               Hdir name entries
                 ((fix G (es : list FsEntry) : Forall P es :=
                     match es with
                     | [] => Forall_nil P
                     | e' :: es' => Forall_cons e' (F e') (G es')
                     end) entries)
           | FsUnreadable name => Hunreadable name
           end).
Qed.

(** The entries of a directory are walked one by one. *)
Lemma walkEntry_dir (name : JSString) (entries : list FsEntry) :
  walkEntry ignoreSet config (FsDir name entries)
  = if shouldInclude ignoreSet config name true then
      let sorted := sortChildren (walkAll ignoreSet config entries) in
      if existsb included sorted then Some (Node name true sorted true) else None
    else None.
Proof.
  cbn [walkEntry]. destruct (shouldInclude ignoreSet config name true); [|reflexivity].
  match goal with
  | |- context [sortChildren ?nodes] =>
      replace nodes with (walkAll ignoreSet config entries); [reflexivity|]
  end.
  unfold walkAll. induction entries as [|e es IH]; [reflexivity|].
  cbn [flat_map]. rewrite IH.
  destruct (walkEntry ignoreSet config e); reflexivity.
Qed.

Lemma walkEntry_ordered (e : FsEntry) :
  forall n, walkEntry ignoreSet config e = Some n -> Ordered n.
Proof.
  induction e as [name|name entries IH|name] using FsEntry_induction; intros n H.
  - cbn in H. injection H as <-. constructor; constructor.
  - rewrite walkEntry_dir in H.
    destruct (shouldInclude ignoreSet config name true); [|discriminate].
    cbn zeta in H.
    destruct (existsb included _); [|discriminate].
    injection H as <-. constructor; [apply sortChildren_sorted|].
    apply sortChildren_keeps. unfold walkAll.
    induction IH as [|e es He _ IHes]; [constructor|].
    cbn [flat_map]. apply Forall_app. split; [|exact IHes].
    destruct (walkEntry ignoreSet config e) as [m|] eqn:E; [|constructor].
    constructor; [now apply He|constructor].
  - discriminate.
Qed.

Lemma walkAll_ordered (entries : list FsEntry) :
  Forall Ordered (walkAll ignoreSet config entries).
Proof.
  unfold walkAll. induction entries as [|e es IH]; [constructor|].
  cbn [flat_map]. apply Forall_app. split; [|exact IH].
  destruct (walkEntry ignoreSet config e) as [m|] eqn:E; [|constructor].
  constructor; [now apply (walkEntry_ordered e)|constructor].
Qed.

Lemma walkRoot_ordered (e : FsEntry) :
  forall n, walkRoot ignoreSet config e = Some n -> Ordered n.
Proof.
  destruct e as [name|name entries|name]; cbn [walkRoot]; intros n H.
  - injection H as <-. constructor; constructor.
  - injection H as <-. constructor; [apply sortChildren_sorted|].
    apply sortChildren_keeps, walkAll_ordered.
  - discriminate.
Qed.

Lemma walkRoots_ordered (roots : list FsEntry) :
  Forall Ordered
    (flat_map (fun e => match walkRoot ignoreSet config e with
                        | Some n => [n]
                        | None => []
                        end) roots).
Proof.
  induction roots as [|r rs IH]; [constructor|].
  cbn [flat_map]. apply Forall_app. split; [|exact IH].
  destruct (walkRoot ignoreSet config r) as [m|] eqn:E; [|constructor].
  constructor; [now apply (walkRoot_ordered r)|constructor].
Qed.

Lemma walk_ordered (resolve : JSString -> option FsEntry)
      (rootPaths : list JSString) (nodes : list TreeNode) :
  walk ignoreSet config resolve rootPaths = inl nodes -> Forall Ordered nodes.
Proof.
  unfold walk. destruct (flat_map _ rootPaths) as [|e es]; [discriminate|].
  intros H. injection H as <-. apply (walkRoots_ordered (e :: es)).
Qed.

End WalkProperties.

(** C8: in every tree the walk returns, at every node, each child stands
    before all the children after it: no file before a directory, and
    directories among themselves and files among themselves by name,
    case disregarded.  For the directory that holds [b.ts], [a.ts] and the
    sub-directory [sub], the rendered tree lists [sub/], then [a.ts], then
    [b.ts]. *)
Theorem children_are_ordered :
  (forall ignoreSet config resolve rootPaths nodes,
      Engine.walk ignoreSet config resolve rootPaths = inl nodes ->
      Forall Engine.Ordered nodes)
  /\ (exists nodes,
        Engine.walk Samples.ignored Samples.tsOnly (fun _ => Some Samples.project)
                    [lit "/work/project"] = inl nodes
        /\ Engine.renderLines nodes
           = [lit "project/";
              Engine.branch ++ lit "sub/";
              Engine.pipe ++ Engine.lastBranch ++ lit "c.ts";
              Engine.branch ++ lit "a.ts";
              Engine.lastBranch ++ lit "b.ts"]).
Proof.
  split.
  - intros ignoreSet config resolve rootPaths nodes. apply walk_ordered.
  - eexists. split; reflexivity.
Qed.

(** C8 at the walk of the sample directory. *)
Lemma children_are_ordered_witness :
  exists nodes,
    Engine.walk Samples.ignored Samples.tsOnly (fun _ => Some Samples.project)
                [lit "/work/project"] = inl nodes
    /\ Forall Engine.Ordered nodes.
Proof.
  eexists. split; [reflexivity|].
  apply (proj1 children_are_ordered Samples.ignored Samples.tsOnly
               (fun _ => Some Samples.project) [lit "/work/project"]).
  reflexivity.
Defined.

(** * Further properties of the entry points *)

(** ** The toggle and the file types *)

Lemma NoDup_snoc (l : list JSString) (x : JSString) :
  NoDup l -> ~ In x l -> NoDup (l ++ [x]).
Proof.
  induction 1 as [|y l Hy Hl IH]; intros Hx; cbn.
  - constructor; [tauto|constructor].
  - constructor.
    + rewrite in_app_iff. cbn. intros [H|[H|[]]]; [tauto|].
      apply Hx. now left.
    + apply IH. intros H. apply Hx. now right.
Qed.

(** After the toggle the entry is in the list exactly when it was not
    there before or was there more than once (only its first occurrence
    is taken out); every other entry stays in or out as it was. *)
Theorem toggle_membership (l : list JSString) (x y : JSString) :
  (In x (Extension.toggled l x)
   <-> count_occ (list_eq_dec N.eq_dec) l x <> 1%nat)
  /\ (y <> x -> (In y (Extension.toggled l x) <-> In y l)).
Proof.
  destruct (in_dec (list_eq_dec N.eq_dec) x l) as [Hin|Hout].
  - destruct (first_occurrence _ _ Hin) as (l1 & l2 & -> & Hn).
    rewrite toggled_present by assumption. split.
    + rewrite count_occ_app, count_occ_cons_eq by reflexivity.
      rewrite (proj1 (count_occ_not_In _ _ _) Hn).
      rewrite in_app_iff, (count_occ_In (list_eq_dec N.eq_dec) l2 x).
      unfold JSString, CodeUnit in *.
      split; [intros [H|H]; [tauto|lia] | intros H; right; lia].
    + intros Hy. rewrite !in_app_iff. cbn. split; [tauto|].
      intros [H|[H|H]]; [tauto|congruence|tauto].
  - rewrite toggled_absent by assumption. split.
    + rewrite (proj1 (count_occ_not_In _ _ _) Hout), in_app_iff. cbn.
      split; [lia|tauto].
    + intros Hy. rewrite in_app_iff. cbn. split; [|tauto].
      intros [H|[H|[]]]; [assumption|congruence].
Qed.

Lemma toggle_membership_witness :
  lit ".md" <> lit ".ts"
  /\ (In (lit ".md") (Extension.toggled [lit ".ts"; lit ".md"] (lit ".ts"))
      <-> In (lit ".md") [lit ".ts"; lit ".md"]).
Proof.
  split; [discriminate|].
  apply (proj2 (toggle_membership [lit ".ts"; lit ".md"] (lit ".ts") (lit ".md"))).
  discriminate.
Defined.

(** The toggle keeps a list without repetitions free of repetitions, and
    it makes the list one entry shorter or one entry longer. *)
Theorem toggle_keeps_NoDup (l : list JSString) (x : JSString) :
  NoDup l ->
  NoDup (Extension.toggled l x)
  /\ (In x l -> S (List.length (Extension.toggled l x)) = List.length l)
  /\ (~ In x l -> List.length (Extension.toggled l x) = S (List.length l)).
Proof.
  intros Hnd. destruct (in_dec (list_eq_dec N.eq_dec) x l) as [Hin|Hout].
  - destruct (first_occurrence _ _ Hin) as (l1 & l2 & -> & Hn).
    rewrite toggled_present by assumption.
    split; [now apply NoDup_remove_1 in Hnd|].
    split; [|tauto]. intros _. rewrite !length_app. cbn. lia.
  - rewrite toggled_absent by assumption.
    split; [now apply NoDup_snoc|].
    split; [tauto|]. intros _. rewrite length_app. cbn. lia.
Qed.

Lemma toggle_keeps_NoDup_witness :
  NoDup [lit ".ts"; lit ".md"]
  /\ NoDup (Extension.toggled [lit ".ts"; lit ".md"] (lit ".ts")).
Proof.
  assert (H : NoDup [lit ".ts"; lit ".md"]).
  { constructor; [intros [E|[]]; discriminate E|].
    constructor; [intros []|constructor]. }
  split; [exact H|].
  apply (proj1 (toggle_keeps_NoDup [lit ".ts"; lit ".md"] (lit ".ts") H)).
Defined.

Section Toggles.
Import Extension.
Context {ext : Externals}.

Lemma updateFileTypes_config (message : Message) (panel : PanelId) (w : World) :
  command message = lit "updateFileTypes" ->
  config (exec (handleReceivedMessage message panel) w)
  = ConfigManager.setFileTypes
      (toggled (ConfigManager.fileTypes (config w)) (fileType message)) (config w).
Proof.
  intros H. unfold handleReceivedMessage, case. rewrite H. reflexivity.
Qed.

(** Two [updateFileTypes] messages for an entry that is not in the
    store put the file types back as they were, and leave the rest of
    the configuration alone. *)
Theorem toggle_on_then_off_restores (message : Message) (panel : PanelId) (w : World) :
  command message = lit "updateFileTypes" ->
  ~ In (fileType message) (ConfigManager.fileTypes (config w)) ->
  config (exec (handleReceivedMessage message panel)
               (exec (handleReceivedMessage message panel) w))
  = config w.
Proof.
  intros Hcmd Hout. rewrite !updateFileTypes_config by assumption.
  destruct (config w) as [types lvl height]. cbn in *.
  unfold ConfigManager.setFileTypes. cbn. f_equal.
  rewrite (toggled_absent types) by assumption.
  replace (types ++ [fileType message]) with (types ++ fileType message :: [])
    by reflexivity.
  rewrite toggled_present by assumption. apply app_nil_r.
Qed.


End Toggles.

Lemma toggle_on_then_off_restores_witness :
  Extension.command (Samples.updateFileTypes (lit ".md")) = lit "updateFileTypes"
  /\ ~ In (lit ".md") [lit ".ts"]
  /\ Extension.config
       (Extension.exec
          (Extension.handleReceivedMessage (ext := Samples.externals)
             (Samples.updateFileTypes (lit ".md")) 0)
          (Extension.exec
             (Extension.handleReceivedMessage (ext := Samples.externals)
                (Samples.updateFileTypes (lit ".md")) 0)
             Samples.opened))
     = Extension.config Samples.opened.
Proof.
  assert (H : ~ In (lit ".md") [lit ".ts"]) by (intros [E|[]]; discriminate E).
  split; [reflexivity|]. split; [exact H|].
  apply (toggle_on_then_off_restores (ext := Samples.externals)
           (Samples.updateFileTypes (lit ".md")) 0 Samples.opened);
    [reflexivity | exact H].
Defined.


(** ** What the message handler leaves alone *)

Section HandlerFrame.
Import Extension.
Context {ext : Externals} {failures : Failures}.

(** Deciding the tests of the [switch] one after the other. *)
Ltac switch message :=
  unfold handleReceivedMessage;
  repeat match goal with
         | |- context [if case ?name message then _ else _] =>
             let E := fresh "E" in destruct (case name message) eqn:E
         end.

Lemma case_true (name : string) (message : Message) :
  case name message = true -> command message = lit name.
Proof. unfold case. apply eqb_eq. Qed.

(** Handling a message never opens, closes or reveals a panel and never
    changes the reference to the panel; the only call it makes into the
    editor is the one to [handleOpenWebpage], for [openWebpage] and for
    no other command. *)
Theorem handler_leaves_panels_and_editor_alone
        (message : Message) (panel : PanelId) (w : World) :
  let w' := exec (handleReceivedMessage message panel) w in
  panels w' = panels w
  /\ globalPanel w' = globalPanel w
  /\ calls w'
     = calls w ++ (if case "openWebpage" message then [HandleOpenWebpage] else []).
Proof.
  destruct (case "openWebpage" message) eqn:Eo.
  - apply case_true in Eo. unfold handleReceivedMessage, case. rewrite Eo.
    cbn. auto.
  - switch message; try discriminate; cbn; rewrite ?app_nil_r; auto.
Qed.

(** Only [refreshFileTypes], [setCompressionLevel], [setFileTypes],
    [setClipboardDataBoxHeight] and [updateFileTypes] can change the
    configuration: after any other message, recognized or not, the store
    is as it was. *)
Theorem only_setters_change_the_configuration
        (message : Message) (panel : PanelId) (w : World) :
  ~ In (command message)
       [lit "refreshFileTypes"; lit "setCompressionLevel"; lit "setFileTypes";
        lit "setClipboardDataBoxHeight"; lit "updateFileTypes"] ->
  config (exec (handleReceivedMessage message panel) w) = config w.
Proof.
  intros H. switch message;
    try (match goal with
         | E : case _ message = true |- _ =>
             apply case_true in E; exfalso; apply H; rewrite E;
             cbn [In]; tauto
         end);
    reflexivity.
Qed.

(** The handler posts at most three messages, all of them to the panel
    it was given, and at least one unless it ends with an error. *)
Theorem handler_posts_at_most_three_messages
        (received : Received) (panel : PanelId) (w : World) :
  let out := postedBy (handleReceived received panel) w in
  (List.length out <= 3)%nat
  /\ Forall (fun pm => fst pm = panel) out
  /\ ((1 <= List.length out)%nat
      \/ exists error, fst (handleReceived received panel w) = Throw error).
Proof.
  intros out.
  destruct (handleReceived_posts received panel w) as (o & Ho & Hlen & Hall & Hend).
  assert (Hout : out = o) by (apply postedBy_app; exact Ho).
  rewrite Hout. split; [exact Hlen|]. split; [exact Hall|].
  destruct (fst (handleReceived received panel w)) as [[]|error].
  - left. destruct Hend as [earlier ->]. rewrite length_app. cbn. lia.
  - right. exists error. reflexivity.
Qed.

End HandlerFrame.

Lemma only_setters_change_the_configuration_witness :
  ~ In (Extension.command (Samples.countChars (lit "hi")))
       [lit "refreshFileTypes"; lit "setCompressionLevel"; lit "setFileTypes";
        lit "setClipboardDataBoxHeight"; lit "updateFileTypes"]
  /\ Extension.config
       (Extension.exec
          (Extension.handleReceivedMessage (ext := Samples.externals)
             (Samples.countChars (lit "hi")) 0)
          Samples.opened)
     = Extension.config Samples.opened.
Proof.
  assert (H : ~ In (Extension.command (Samples.countChars (lit "hi")))
                   [lit "refreshFileTypes"; lit "setCompressionLevel";
                    lit "setFileTypes"; lit "setClipboardDataBoxHeight";
                    lit "updateFileTypes"]).
  { cbn [In]. intros [E|[E|[E|[E|[E|[]]]]]]; discriminate E. }
  split; [exact H|].
  apply (only_setters_change_the_configuration (ext := Samples.externals)
           (Samples.countChars (lit "hi")) 0 Samples.opened H).
Defined.

(** ** The clipboard observer over time *)

Section ClipboardRuns.
Import Extension.
Context {ext : Externals}.

Lemma intervals_cons (reading : JSString) (readings : list JSString)
      (lastKnown : JSString) :
  intervals (reading :: readings) lastKnown
  = if JS.eqb reading lastKnown then intervals readings lastKnown
    else UpdateClipboardDataBox reading None None :: intervals readings reading.
Proof.
  cbn [intervals]. unfold intervalCallback.
  destruct (JS.eqb reading lastKnown); reflexivity.
Qed.

Lemma clipBoardPolling_unfold (first : JSString) (readings : list JSString) :
  clipBoardPolling first readings
  = if JS.eqb first [] then intervals readings []
    else UpdateClipboardDataBox first (Some (getTokenCount first))
                                (Some (JS.length first))
           :: intervals readings first.
Proof.
  unfold clipBoardPolling, firstRead. destruct (JS.eqb first []); reflexivity.
Qed.

Lemma intervals_without_counts (readings : list JSString) :
  forall lastKnown,
    Forall (fun m => exists content, m = UpdateClipboardDataBox content None None)
           (intervals readings lastKnown).
Proof.
  induction readings as [|r rs IH]; intros lastKnown; [constructor|].
  rewrite intervals_cons. destruct (JS.eqb r lastKnown); [apply IH|].
  constructor; [now exists r|apply IH].
Qed.

(** Of all the messages one call of [clipBoardPolling] posts, only the
    first can carry counts, and it does only when the clipboard was not
    empty at the start; a call that starts on an empty clipboard never
    sends a count, whatever is copied later. *)
Theorem only_the_first_read_sends_counts (first : JSString) (readings : list JSString) :
  (first = [] ->
   Forall (fun m => exists content, m = UpdateClipboardDataBox content None None)
          (clipBoardPolling first readings))
  /\ (first <> [] ->
      exists later,
        clipBoardPolling first readings
        = UpdateClipboardDataBox first (Some (getTokenCount first))
                                 (Some (JS.length first)) :: later
        /\ Forall (fun m => exists content, m = UpdateClipboardDataBox content None None)
                  later).
Proof.
  rewrite clipBoardPolling_unfold. split.
  - intros ->. cbn. apply intervals_without_counts.
  - intros H. apply eqb_neq in H. rewrite H.
    eexists. split; [reflexivity|apply intervals_without_counts].
Qed.

Lemma contents_intervals_cons (reading : JSString) (readings : list JSString)
      (lastKnown : JSString) :
  contents (intervals (reading :: readings) lastKnown)
  = if JS.eqb reading lastKnown then contents (intervals readings lastKnown)
    else reading :: contents (intervals readings reading).
Proof.
  rewrite intervals_cons. destruct (JS.eqb reading lastKnown); reflexivity.
Qed.

Lemma contents_clipBoardPolling (first : JSString) (readings : list JSString) :
  contents (clipBoardPolling first readings)
  = contents (intervals (first :: readings) []).
Proof.
  rewrite clipBoardPolling_unfold, contents_intervals_cons.
  destruct (JS.eqb first []); reflexivity.
Qed.

Lemma intervals_head_differs (readings : list JSString) :
  forall lastKnown c rest,
    contents (intervals readings lastKnown) = c :: rest -> c <> lastKnown.
Proof.
  induction readings as [|r rs IH]; intros lastKnown c rest; [discriminate|].
  rewrite contents_intervals_cons. destruct (JS.eqb r lastKnown) eqn:E.
  - apply IH.
  - intros H. injection H as <- _. now apply eqb_neq.
Qed.

Lemma intervals_no_repeat (readings : list JSString) :
  forall lastKnown pre a b post,
    contents (intervals readings lastKnown) = pre ++ a :: b :: post -> a <> b.
Proof.
  induction readings as [|r rs IH]; intros lastKnown pre a b post.
  - destruct pre; discriminate.
  - rewrite contents_intervals_cons. destruct (JS.eqb r lastKnown) eqn:E.
    + apply IH.
    + destruct pre as [|c pre]; cbn [app]; intros H.
      * injection H as <- H. apply intervals_head_differs in H. congruence.
      * injection H as _ H. now apply IH in H.
Qed.

(** The observer never puts the same content on display twice in a row:
    of two messages posted one after the other, the second carries a
    content different from the first. *)
Theorem clipboard_is_never_posted_twice_in_a_row
        (first : JSString) (readings : list JSString)
        (pre : list JSString) (a b : JSString) (post : list JSString) :
  contents (clipBoardPolling first readings) = pre ++ a :: b :: post -> a <> b.
Proof.
  rewrite contents_clipBoardPolling. apply intervals_no_repeat.
Qed.

Lemma last_cons_default (l : list JSString) (a d : JSString) :
  last (a :: l) d = last l a.
Proof.
  revert a d. induction l as [|b l IH]; intros a d; [reflexivity|].
  change (last (a :: b :: l) d) with (last (b :: l) d). now rewrite !IH.
Qed.

Lemma intervals_in_sync (readings : list JSString) :
  forall lastKnown,
    last (contents (intervals readings lastKnown)) lastKnown = last readings lastKnown.
Proof.
  induction readings as [|r rs IH]; intros lastKnown; [reflexivity|].
  rewrite contents_intervals_cons, (last_cons_default rs).
  destruct (JS.eqb r lastKnown) eqn:E.
  - apply eqb_eq in E. subst r. apply IH.
  - rewrite last_cons_default. apply IH.
Qed.

(** The display keeps up with the clipboard: the content of the last
    message posted is what the clipboard held at the latest reading (and
    if nothing was ever posted, every reading was empty, as the display
    is at the start). *)
Theorem display_follows_the_clipboard (first : JSString) (readings : list JSString) :
  last (contents (clipBoardPolling first readings)) [] = last (first :: readings) [].
Proof.
  rewrite contents_clipBoardPolling. apply intervals_in_sync.
Qed.

Lemma intervals_silent (readings : list JSString) (lastKnown : JSString) :
  intervals readings lastKnown = [] <-> Forall (eq lastKnown) readings.
Proof.
  induction readings as [|r rs IH]; [split; constructor|].
  rewrite intervals_cons. destruct (JS.eqb r lastKnown) eqn:E.
  - apply eqb_eq in E. subst r. rewrite IH. split.
    + intros H. now constructor.
    + intros H. now inversion H.
  - apply eqb_neq in E. split; [discriminate|].
    intros H. inversion H. congruence.
Qed.

(** One call of [clipBoardPolling] posts nothing at all exactly when the
    clipboard is empty at every reading. *)
Theorem observer_is_silent_iff_clipboard_stays_empty
        (first : JSString) (readings : list JSString) :
  clipBoardPolling first readings = [] <-> Forall (eq []) (first :: readings).
Proof.
  rewrite clipBoardPolling_unfold. destruct (JS.eqb first []) eqn:E.
  - apply eqb_eq in E. subst first. rewrite intervals_silent. split.
    + intros H. now constructor.
    + intros H. now inversion H.
  - apply eqb_neq in E. split; [discriminate|].
    intros H. inversion H. congruence.
Qed.

End ClipboardRuns.

Lemma only_the_first_read_sends_counts_witness :
  lit "hello" <> []
  /\ exists later,
       Extension.clipBoardPolling (ext := Samples.externals) (lit "hello") [lit "bye"]
       = Extension.UpdateClipboardDataBox (lit "hello") (Some 1%Z) (Some 5%Z) :: later.
Proof.
  split; [discriminate|].
  destruct (proj2 (only_the_first_read_sends_counts (ext := Samples.externals)
                     (lit "hello") [lit "bye"]))
    as (later & H & _); [discriminate|].
  exists later. exact H.
Defined.

Lemma clipboard_is_never_posted_twice_in_a_row_witness :
  Extension.contents
    (Extension.clipBoardPolling (ext := Samples.externals)
       (lit "a") [lit "a"; lit "b"; lit "b"])
  = [] ++ lit "a" :: lit "b" :: []
  /\ lit "a" <> lit "b".
Proof.
  split; [reflexivity|].
  apply (clipboard_is_never_posted_twice_in_a_row (ext := Samples.externals)
           (lit "a") [lit "a"; lit "b"; lit "b"] [] (lit "a") (lit "b") []).
  reflexivity.
Defined.

(** ** Runs of the TypeScript entry point *)

Section RunsTs.
Import Extension.
Context {ext : Externals}.

Lemma Forall_lt_S {A} (f : A -> nat) (n : nat) (l : list A) :
  Forall (fun a => f a < n)%nat l -> Forall (fun a => f a < S n)%nat l.
Proof. apply Forall_impl. intros a H. lia. Qed.

Lemma NoDup_snoc_nat (l : list nat) (x : nat) :
  NoDup l -> ~ In x l -> NoDup (l ++ [x]).
Proof.
  intros Hl Hx. apply NoDup_app; [assumption|repeat constructor; intros []|].
  intros a Ha [<-|[]]. contradiction.
Qed.

Lemma handler_effects (message : Message) (panel : PanelId) (w : World) :
  let w' := exec (handleReceivedMessage message panel) w in
  panels w' = panels w
  /\ globalPanel w' = globalPanel w
  /\ htmlTargets w' = htmlTargets w
  /\ loading w' = loading w
  /\ exists out, posted w' = posted w ++ out /\ Forall (fun pm => fst pm = panel) out.
Proof.
  unfold handleReceivedMessage, htmlTargets.
  repeat match goal with
         | |- context [if case ?name message then _ else _] =>
             destruct (case name message)
         end;
    cbn; rewrite <- ?app_assoc, ?flat_map_app; cbn; rewrite ?app_nil_r;
    (split; [reflexivity|]); (split; [reflexivity|]); (split; [reflexivity|]);
    (split; [reflexivity|]);
    eexists; (split; [reflexivity|]); repeat constructor.
Qed.

(** Nothing is being composed while no panel is open. *)
Lemma nothing_loading (w : World) :
  consistent w -> globalPanel w = None -> loading w = [].
Proof.
  intros (Hstep & _ & _ & _ & _ & _ & _ & Hload) Hnone.
  unfold inStep in Hstep. rewrite Hnone in Hstep.
  destruct (loading w) as [|p l]; [reflexivity|].
  destruct (Hload p (or_introl eq_refl)) as [Hin _].
  rewrite Hstep in Hin. destruct Hin.
Qed.

Lemma open_consistent (w : World) :
  consistent w -> consistent (exec openWebviewAndExplorerSidebar w).
Proof.
  intros H. pose proof (nothing_loading w H) as Hnothing.
  destruct H as (Hstep & Hnew & Hrev & Hpost & Hnd & Hlt & Hndl & Hload).
  unfold consistent, inStep in *.
  unfold openWebviewAndExplorerSidebar, exec, bind, getGlobalPanel, htmlTargets in *.
  destruct (globalPanel w) as [p|] eqn:E; cbn.
  - rewrite E, flat_map_app. cbn. rewrite app_nil_r.
    specialize (Hnew p eq_refl).
    split; [assumption|]. split; [intros q Hq; injection Hq as <-; exact Hnew|].
    split; [apply Forall_app; split; [assumption|]; constructor; [lia|constructor]|].
    repeat split; try assumption; now apply Hload.
  - rewrite Hstep, (Hnothing eq_refl), !flat_map_app. cbn. rewrite !app_nil_r.
    split; [reflexivity|]. split; [intros q Hq; now injection Hq as <-|].
    split; [now apply (Forall_lt_S (fun p => p))|].
    split.
    { rewrite <- app_assoc. apply Forall_app. split.
      - now apply (Forall_lt_S (fun pm => fst pm)).
      - repeat constructor. }
    split; [assumption|]. split; [now apply (Forall_lt_S (fun p => p))|].
    split; [repeat constructor; intros []|].
    intros q [<-|[]]. split; [now left|].
    intros Hin. rewrite Forall_forall in Hlt. specialize (Hlt _ Hin). lia.
Qed.

Lemma close_consistent (p : PanelId) (w : World) :
  consistent w -> consistent (exec (closePanel p) w).
Proof.
  intros H. unfold closePanel, exec. destruct (isLive p (panels w)) eqn:El; [|exact H].
  destruct H as (Hstep & Hnew & Hrev & Hpost & Hnd & Hlt & Hndl & Hload).
  unfold consistent, inStep, htmlTargets in *. cbn.
  split.
  { destruct (globalPanel w) as [q|].
    - now apply (close_the_panel p q).
    - rewrite (nothing_to_close p _ Hstep) in El. discriminate. }
  split; [discriminate|].
  split; [assumption|]. split; [assumption|]. split; [assumption|].
  split; [assumption|]. split; [now apply NoDup_filter|].
  intros q Hq. apply filter_In in Hq as [Hq Hopen].
  destruct (Hload q Hq) as [Hlive Hnot]. split; [|assumption].
  apply filter_In. split; assumption.
Qed.

Lemma htmlComposed_consistent (p : PanelId) (w : World) :
  consistent w -> consistent (exec (htmlComposed p) w).
Proof.
  intros H. unfold htmlComposed, exec.
  destruct (existsb (Nat.eqb p) (loading w)) eqn:El; [|exact H].
  apply existsb_exists in El as (q & Hq & Epq). apply Nat.eqb_eq in Epq. subst q.
  destruct H as (Hstep & Hnew & Hrev & Hpost & Hnd & Hlt & Hndl & Hload).
  destruct (Hload p Hq) as [Hlive Hnot].
  assert (Hp : (p < nextId (panels w))%nat).
  { unfold inStep in Hstep. destruct (globalPanel w) as [g|].
    - rewrite Hstep in Hlive. destruct Hlive as [<-|[]].
      specialize (Hnew g eq_refl). lia.
    - rewrite Hstep in Hlive. destruct Hlive. }
  unfold consistent, htmlTargets in *. cbn. rewrite flat_map_app. cbn.
  split; [assumption|]. split; [assumption|]. split; [assumption|].
  split; [assumption|].
  split; [now apply NoDup_snoc_nat|].
  split; [apply Forall_app; split; [assumption|]; now repeat constructor|].
  split; [now apply NoDup_filter|].
  intros q Hin. apply filter_In in Hin as [Hin Hopen].
  destruct (Hload q Hin) as [Hl Hn]. split; [assumption|].
  rewrite in_app_iff. cbn. intros [Ht|[Ht|[]]]; [contradiction|].
  subst q. unfold stillOpen in Hopen. rewrite Nat.eqb_refl in Hopen. discriminate.
Qed.

Lemma handle_consistent (e : Event) (w : World) :
  consistent w -> consistent (exec (handle e) w).
Proof.
  intros H. destruct e as [|visible|p|p visible|message|p]; cbn [handle].
  - now apply open_consistent.
  - destruct visible; [now apply open_consistent|exact H].
  - now apply close_consistent.
  - unfold exec. destruct (isLive p (panels w)) eqn:El; [|exact H].
    destruct visible; [|exact H].
    destruct H as (Hstep & Hnew & Hrev & Hpost & Hnd & Hlt & Hndl & Hload).
    assert (Hp : (p < nextId (panels w))%nat).
    { unfold inStep, isLive in *. destruct (globalPanel w) as [q|].
      - rewrite Hstep in El. cbn in El. rewrite orb_false_r in El.
        apply Nat.eqb_eq in El. subst q. specialize (Hnew p eq_refl). lia.
      - rewrite Hstep in El. discriminate. }
    unfold consistent, inStep, htmlTargets in *. cbn.
    rewrite flat_map_app. cbn. rewrite app_nil_r.
    split; [assumption|]. split; [assumption|]. split; [assumption|].
    split; [|repeat split; try assumption; now apply Hload].
    apply Forall_app. split; [assumption|]. repeat constructor. exact Hp.
  - unfold onDidReceiveMessage, exec, bind, getGlobalPanel.
    destruct (globalPanel w) as [q|] eqn:E; [|exact H].
    destruct (handler_effects message q w) as (Hp & Hg & Hh & Hl & out & Ho & Hall).
    destruct H as (Hstep & Hnew & Hrev & Hpost & Hnd & Hlt & Hndl & Hload).
    unfold exec in *. cbn [snd].
    unfold consistent. rewrite Hp, Hg, Hh, Hl, Ho.
    split; [assumption|]. split; [assumption|]. split; [assumption|].
    split; [|repeat split; try assumption; now apply Hload].
    apply Forall_app. split; [assumption|].
    eapply Forall_impl; [|exact Hall]. intros pm Hpm. cbn beta.
    unfold PanelId in *. rewrite Hpm. specialize (Hnew q E). lia.
  - now apply htmlComposed_consistent.
Qed.

Lemma run_consistent (events : list Event) (w : World) :
  consistent w -> consistent (run events w).
Proof.
  revert w. induction events as [|e events IH]; intros w H; [exact H|].
  cbn [run]. apply IH. now apply handle_consistent.
Qed.

Lemma activated_consistent (store : ConfigManager.Store) :
  consistent (activated store).
Proof.
  unfold consistent, inStep, htmlTargets. cbn.
  split; [reflexivity|]. split; [discriminate|].
  repeat (split; [constructor|]). intros p [].
Qed.

(** However the extension is used, the panel it refers to is the one
    that was created last, and a panel that has been closed is never
    revealed again nor referred to again: identifiers of panels only
    grow. *)
Theorem open_panel_is_the_newest (store : ConfigManager.Store) (events : list Event) :
  let w := run events (activated store) in
  match globalPanel w with
  | Some p => S p = nextId (panels w)
  | None => True
  end
  /\ Forall (fun p => p < nextId (panels w))%nat (revealed (panels w)).
Proof.
  intros w. destruct (run_consistent events _ (activated_consistent store))
    as (_ & Hnew & Hrev & _). fold w in Hnew, Hrev. split; [|assumption].
  destruct (globalPanel w) as [p|]; [now apply Hnew|exact I].
Qed.

(** However the extension is used, every message it has posted went to a
    panel it had created itself. *)
Theorem messages_go_to_created_panels (store : ConfigManager.Store) (events : list Event) :
  let w := run events (activated store) in
  Forall (fun pm => fst pm < nextId (panels w))%nat (posted w).
Proof.
  intros w. destruct (run_consistent events _ (activated_consistent store))
    as (_ & _ & _ & Hpost & _). exact Hpost.
Qed.

(** However the extension is used, and whenever the reading of the file
    comes to an end, the HTML is assigned to a panel at most once, only
    to panels the extension has created, and never again when the panel
    is revealed; the HTML that is still being composed is that of the
    open panel, which has none yet. *)
Theorem html_is_set_at_most_once_per_panel
        (store : ConfigManager.Store) (events : list Event) :
  let w := run events (activated store) in
  NoDup (htmlTargets w ++ loading w)
  /\ Forall (fun p => p < nextId (panels w))%nat (htmlTargets w)
  /\ incl (loading w) (live (panels w)).
Proof.
  intros w. destruct (run_consistent events _ (activated_consistent store))
    as (_ & _ & _ & _ & Hnd & Hlt & Hndl & Hload).
  fold w in Hnd, Hlt, Hndl, Hload. split; [|split; [assumption|]].
  - apply NoDup_app; [assumption|assumption|].
    intros p Ht Hl. now destruct (Hload p Hl).
  - intros p Hp. now destruct (Hload p Hp).
Qed.

(** While no panel is open, only the command that opens the webview has
    an effect: a message, a view-state change or the closing of a panel
    that arrives then leaves everything as it is. *)
Theorem nothing_happens_without_a_panel
        (store : ConfigManager.Store) (events : list Event) (e : Event) :
  let w := run events (activated store) in
  globalPanel w = None ->
  e <> CreateWebviewCommand -> e <> TreeViewVisible true ->
  exec (handle e) w = w.
Proof.
  intros w Hnone Hc Hv.
  pose proof (run_consistent events _ (activated_consistent store)) as Hcons.
  fold w in Hcons. pose proof (nothing_loading w Hcons Hnone) as Hload.
  destruct Hcons as (Hstep & _).
  unfold inStep in Hstep. rewrite Hnone in Hstep.
  destruct e as [|visible|p|p visible|message|p]; cbn [handle].
  - congruence.
  - destruct visible; [congruence|reflexivity].
  - unfold closePanel, exec. now rewrite (nothing_to_close p _ Hstep).
  - unfold exec. now rewrite (nothing_to_close p _ Hstep).
  - unfold onDidReceiveMessage, exec, bind, getGlobalPanel. now rewrite Hnone.
  - unfold htmlComposed, exec. now rewrite Hload.
Qed.

End RunsTs.

Lemma nothing_happens_without_a_panel_witness :
  Extension.globalPanel
    (Extension.run (ext := Samples.externals) [] (Extension.activated Samples.store))
  = None
  /\ Extension.MessageReceived (Samples.updateFileTypes (lit ".md"))
     <> Extension.CreateWebviewCommand
  /\ Extension.MessageReceived (Samples.updateFileTypes (lit ".md"))
     <> Extension.TreeViewVisible true
  /\ Extension.exec
       (Extension.handle (ext := Samples.externals)
          (Extension.MessageReceived (Samples.updateFileTypes (lit ".md"))))
       (Extension.run (ext := Samples.externals) [] (Extension.activated Samples.store))
     = Extension.run (ext := Samples.externals) [] (Extension.activated Samples.store).
Proof.
  split; [reflexivity|]. split; [discriminate|]. split; [discriminate|].
  apply (nothing_happens_without_a_panel (ext := Samples.externals) Samples.store []
           (Extension.MessageReceived (Samples.updateFileTypes (lit ".md"))));
    [reflexivity | discriminate | discriminate].
Defined.

(** ** Runs of the JavaScript entry point *)

Section RunsJs.
Import ExtensionJs.
Context {ext : Externals}.

Lemma extractCodeCommand_calls (uri : option Uri) (uris : option (list Uri)) (w : World) :
  let w' := exec (extractCodeCommand uri uris) w in
  panels w' = panels w
  /\ currentPanel w' = currentPanel w
  /\ exists c, calls w' = calls w ++ [c] /\ isSetHtml c = false /\ c <> ExtractCode [].
Proof.
  unfold extractCodeCommand.
  destruct uris as [[|u l]|]; destruct uri as [v|]; cbn;
    (split; [reflexivity|]); (split; [reflexivity|]);
    eexists; (split; [reflexivity|]); split; (reflexivity || discriminate).
Qed.

Lemma showWebview_consistent (w : World) :
  consistent w -> consistent (exec showWebview w).
Proof.
  unfold consistent, inStep. intros (Hstep & Hnew & Hrev & Hhtml & Hext).
  unfold showWebview, exec, bind, getCurrentPanel, htmlLoads in *.
  destruct (currentPanel w) as [p|] eqn:E; cbn.
  - rewrite E. specialize (Hnew p eq_refl).
    repeat split; try assumption.
    + intros q Hq. injection Hq as <-. exact Hnew.
    + apply Forall_app. split; [assumption|]. constructor; [lia|constructor].
  - rewrite Hstep, filter_app. cbn. rewrite length_app. cbn.
    repeat split.
    + intros q Hq. now injection Hq as <-.
    + eapply Forall_impl; [|exact Hrev]. intros a Ha. cbn beta in *. lia.
    + lia.
    + rewrite in_app_iff. cbn. intros [H|[H|[]]]; [tauto|discriminate H].
Qed.

Lemma openExplorer_consistent (w : World) :
  consistent w -> consistent (exec openExplorerCommand w).
Proof.
  intros H.
  apply (showWebview_consistent
           (exec (call (ExecuteCommand (lit "workbench.view.explorer"))) w)).
  destruct H as (Hstep & Hnew & Hrev & Hhtml & Hext).
  unfold consistent, htmlLoads in *. cbn. rewrite filter_app. cbn.
  rewrite app_nil_r. repeat split; try assumption.
  rewrite in_app_iff. cbn. intros [H|[H|[]]]; [tauto|discriminate H].
Qed.

Lemma handle_js_consistent (e : Event) (w : World) :
  consistent w -> consistent (exec (handle e) w).
Proof.
  intros H. destruct e as [uri uris|  |visible|p]; cbn [handle].
  - destruct (extractCodeCommand_calls uri uris w) as (Hp & Hc & c & Hcalls & Hc1 & Hc2).
    destruct H as (Hstep & Hnew & Hrev & Hhtml & Hext).
    unfold consistent, htmlLoads in *. rewrite Hp, Hc, Hcalls, filter_app.
    cbn. rewrite Hc1, app_nil_r.
    split; [assumption|]. split; [assumption|]. split; [assumption|].
    split; [assumption|].
    rewrite in_app_iff. cbn. intros [H|[H|[]]]; [tauto|congruence].
  - now apply openExplorer_consistent.
  - destruct visible; [now apply openExplorer_consistent|exact H].
  - unfold closePanel, exec. destruct (isLive p (panels w)) eqn:El; [|exact H].
    destruct H as (Hstep & Hnew & Hrev & Hhtml & Hext).
    unfold consistent, inStep, htmlLoads in *. cbn.
    repeat split; try assumption; [|discriminate].
    destruct (currentPanel w) as [q|].
    + now apply (close_the_panel p q).
    + rewrite (nothing_to_close p _ Hstep) in El. discriminate.
Qed.

Lemma run_js_consistent (events : list Event) (w : World) :
  consistent w -> consistent (run events w).
Proof.
  revert w. induction events as [|e events IH]; intros w H; [exact H|].
  cbn [run]. apply IH. now apply handle_js_consistent.
Qed.

Lemma activated_js_consistent : consistent activated.
Proof.
  unfold consistent, inStep, htmlLoads. cbn.
  repeat split; try constructor; try discriminate. intros [].
Qed.

(** However the commands follow each other, the extraction engine is
    never called with an empty list of roots. *)
Theorem engine_is_never_called_without_roots (events : list Event) :
  ~ In (ExtractCode []) (calls (run events activated)).
Proof.
  destruct (run_js_consistent events _ activated_js_consistent)
    as (_ & _ & _ & _ & H). exact H.
Qed.


End RunsJs.

(** ** The [openGui] command *)

Section OpenGui.
Import ExtensionTs.
Context {ext : Externals}.

Lemma openGui_panels (ps : Panels) :
  snd (openGui ps) = snd (Host.createWebviewPanel ps).
Proof. unfold openGui. cbn. destruct getWebviewContent; reflexivity. Qed.

(** [openGui] never comes back to a panel it has opened: [n] calls leave
    [n] more panels open, in the order of the calls, whether their HTML
    could be loaded or not. *)
Theorem openGui_opens_a_panel_per_call (n : nat) (ps : Panels) :
  live (openGuiTimes n ps) = live ps ++ seq (nextId ps) n
  /\ nextId (openGuiTimes n ps) = (nextId ps + n)%nat.
Proof.
  revert ps. induction n as [|n IH]; intros ps; cbn [openGuiTimes seq].
  - rewrite app_nil_r. split; [reflexivity|lia].
  - destruct (IH (snd (openGui ps))) as [Hlive Hnext].
    rewrite Hlive, Hnext, openGui_panels. cbn.
    rewrite <- app_assoc. split; [reflexivity|lia].
Qed.

End OpenGui.

(** ** Activation *)

Section Activation.
Import Extension.
Context {ext : Externals}.


End Activation.


(** ** Pages without the references *)

Lemma replaceFrom_without_match (again : bool) (pat : list Pat) (rep s : JSString) :
  forall enabled, occurs pat s = false -> replaceFrom again pat rep 0 enabled s = s.
Proof.
  induction s as [|u s IH]; intros enabled H; [reflexivity|].
  cbn [occurs] in H. apply orb_false_iff in H as [Hm Ho].
  cbn [replaceFrom]. rewrite Hm, andb_false_r. now rewrite IH.
Qed.

(** A page that holds neither the [link] tag nor the [script] tag that
    [composeWebViewContent] looks for is returned as it was read. *)
Theorem composeWebViewContent_keeps_a_page_without_tags
        (ext : Extension.Externals) (html : JSString) :
  Extension.disk
    (joinPath Extension.extensionUri [lit "out"; lit "webview"; lit "webview.html"])
  = Content html ->
  occurs (regExp (Extension.linkTag (lit "./webview.css"))) html = false ->
  occurs (regExp (Extension.scriptTag (lit "webview.js"))) html = false ->
  Extension.composeWebViewContent = html.
Proof.
  intros Hdisk Hlink Hscript. unfold Extension.composeWebViewContent.
  rewrite Hdisk. unfold replaceRegExp.
  rewrite (replaceFrom_without_match false _ _ html true Hlink).
  now apply replaceFrom_without_match.
Qed.

(** A page that mentions none of the three style sheets is returned by
    [getWebviewContent] as it was read. *)
Theorem getWebviewContent_keeps_a_page_without_styles
        (ext : ExtensionJs.Externals) (html : JSString) :
  ExtensionJs.disk
    (joinPath (joinPath ExtensionJs.extensionPath [lit "src"; lit "webview"])
              [lit "webview.html"])
  = Content html ->
  occurs (map Lit (lit "./styles/variables.css")) html = false ->
  occurs (map Lit (lit "./styles/webview.css")) html = false ->
  occurs (map Lit (lit "./styles/box.css")) html = false ->
  ExtensionJs.getWebviewContent = html.
Proof.
  intros Hdisk Hv Hw Hb. unfold ExtensionJs.getWebviewContent.
  rewrite Hdisk. unfold replace, replaceRegExp.
  rewrite (replaceFrom_without_match false _ _ html true Hv).
  rewrite (replaceFrom_without_match false _ _ html true Hw).
  now apply replaceFrom_without_match.
Qed.

(** When [dist/webview.html] can be read and holds no [src] attribute of
    the form the expression matches, [getWebviewContent] of
    [src/extension.ts] returns the page as it was read. *)
Theorem getWebviewContent_ts_keeps_a_page_without_script
        (ext : ExtensionTs.Externals) (content : JSString) :
  ExtensionTs.disk (joinPath ExtensionTs.extensionPath [lit "dist"; lit "webview.html"])
  = Content content ->
  occurs (regExp (ExtensionTs.srcAttribute (lit "webview.js"))) content = false ->
  ExtensionTs.getWebviewContent = Return content.
Proof.
  intros Hdisk Hsrc. unfold ExtensionTs.getWebviewContent.
  rewrite Hdisk. unfold replaceRegExpAll. f_equal.
  now apply replaceFrom_without_match.
Qed.

Lemma composeWebViewContent_keeps_a_page_without_tags_witness :
  Extension.disk (Externals := Samples.externalsPlain)
    (joinPath (Extension.extensionUri (Externals := Samples.externalsPlain))
              [lit "out"; lit "webview"; lit "webview.html"])
  = Content Samples.plain
  /\ Extension.composeWebViewContent (ext := Samples.externalsPlain) = Samples.plain.
Proof.
  split; [reflexivity|].
  apply (composeWebViewContent_keeps_a_page_without_tags
           Samples.externalsPlain Samples.plain); reflexivity.
Defined.

Lemma getWebviewContent_keeps_a_page_without_styles_witness :
  occurs (map Lit (lit "./styles/box.css")) Samples.plain = false
  /\ ExtensionJs.getWebviewContent (ext := Samples.externalsJsPlain) = Samples.plain.
Proof.
  split; [reflexivity|].
  apply (getWebviewContent_keeps_a_page_without_styles
           Samples.externalsJsPlain Samples.plain); reflexivity.
Defined.

Lemma getWebviewContent_ts_keeps_a_page_without_script_witness :
  occurs (regExp (ExtensionTs.srcAttribute (lit "webview.js"))) Samples.plain = false
  /\ ExtensionTs.getWebviewContent (ext := Samples.externalsTsPlain)
     = Return Samples.plain.
Proof.
  split; [reflexivity|].
  apply (getWebviewContent_ts_keeps_a_page_without_script
           Samples.externalsTsPlain Samples.plain); reflexivity.
Defined.

(** ** Pages with the tags *)

Lemma replaceFrom_skips (pat : list Pat) (rep s : JSString) :
  forall k, replaceFrom false pat rep k false s = skipn k s.
Proof.
  induction s as [|u s IH]; intros k; [now destruct k|].
  destruct k as [|k]; cbn [replaceFrom skipn andb].
  - now rewrite IH.
  - apply IH.
Qed.

(** The first match is replaced, and only it. *)
Lemma replaceFrom_first (pat : list Pat) (rep pre m post : JSString) :
  pat <> [] ->
  List.length m = List.length pat ->
  matchesAt pat (m ++ post) = true ->
  startsIn pat pre (m ++ post) = false ->
  replaceRegExp pat rep (pre ++ m ++ post) = pre ++ rep ++ post.
Proof.
  intros Hpat Hlen Hm. unfold replaceRegExp.
  induction pre as [|u pre IH]; intros Hpre.
  - destruct m as [|u m]; [destruct pat; [congruence|discriminate]|].
    cbn [app replaceFrom andb]. cbn [app] in Hm. rewrite Hm.
    rewrite replaceFrom_skips. f_equal.
    cbn [List.length] in Hlen.
    replace (List.length pat - 1)%nat with (List.length m) by lia.
    rewrite skipn_app, skipn_all, Nat.sub_diag. reflexivity.
  - cbn [startsIn] in Hpre. apply orb_false_iff in Hpre as [Hu Hpre].
    cbn [app replaceFrom andb]. cbn [app] in Hu. rewrite Hu.
    f_equal. now apply IH.
Qed.

(** On a page that holds the [link] tag and, after it, the [script] tag,
    each once where the expressions first match,
    [composeWebViewContent] puts the URI of the style sheet and the URI
    of the script in their places and leaves the rest of the page as it
    is. *)
Theorem composeWebViewContent_puts_the_uris_in
        (ext : Extension.Externals) (pre mid post : JSString) :
  let styleUri := Extension.asWebviewUri
        (joinPath Extension.extensionUri [lit "out"; lit "webview"; lit "webview.css"]) in
  let scriptUri := Extension.asWebviewUri
        (joinPath Extension.extensionUri [lit "out"; lit "webview"; lit "webview.js"]) in
  Extension.disk
    (joinPath Extension.extensionUri [lit "out"; lit "webview"; lit "webview.html"])
  = Content (pre ++ Extension.linkTag (lit "./webview.css") ++ mid
                 ++ Extension.scriptTag (lit "webview.js") ++ post) ->
  startsIn (regExp (Extension.linkTag (lit "./webview.css"))) pre
           (Extension.linkTag (lit "./webview.css") ++ mid
              ++ Extension.scriptTag (lit "webview.js") ++ post) = false ->
  startsIn (regExp (Extension.scriptTag (lit "webview.js")))
           (pre ++ Extension.linkTag styleUri ++ mid)
           (Extension.scriptTag (lit "webview.js") ++ post) = false ->
  Extension.composeWebViewContent
  = pre ++ Extension.linkTag styleUri ++ mid ++ Extension.scriptTag scriptUri ++ post.
Proof.
  intros styleUri scriptUri Hdisk Hlink Hscript.
  unfold Extension.composeWebViewContent. rewrite Hdisk.
  fold styleUri scriptUri.
  rewrite (replaceFrom_first
             (regExp (Extension.linkTag (lit "./webview.css")))
             (Extension.linkTag styleUri) pre
             (Extension.linkTag (lit "./webview.css"))
             (mid ++ Extension.scriptTag (lit "webview.js") ++ post));
    [|discriminate|reflexivity|reflexivity|exact Hlink].
  replace (pre ++ Extension.linkTag styleUri ++ mid
               ++ Extension.scriptTag (lit "webview.js") ++ post)
    with ((pre ++ Extension.linkTag styleUri ++ mid)
            ++ Extension.scriptTag (lit "webview.js") ++ post)
    by (now rewrite <- !app_assoc).
  rewrite (replaceFrom_first
             (regExp (Extension.scriptTag (lit "webview.js")))
             (Extension.scriptTag scriptUri)
             (pre ++ Extension.linkTag styleUri ++ mid)
             (Extension.scriptTag (lit "webview.js")) post);
    [|discriminate|reflexivity|reflexivity|exact Hscript].
  now rewrite <- !app_assoc.
Qed.

Lemma composeWebViewContent_puts_the_uris_in_witness :
  Extension.disk (Externals := Samples.externalsWithPage)
    (joinPath (Extension.extensionUri (Externals := Samples.externalsWithPage))
              [lit "out"; lit "webview"; lit "webview.html"])
  = Content (lit "<head>" ++ Extension.linkTag (lit "./webview.css") ++ []
                 ++ Extension.scriptTag (lit "webview.js") ++ lit "</head>")
  /\ Extension.composeWebViewContent (ext := Samples.externalsWithPage)
     = lit "<head>"
         ++ Extension.linkTag (lit "vscode-webview:///ext/out/webview/webview.css")
         ++ []
         ++ Extension.scriptTag (lit "vscode-webview:///ext/out/webview/webview.js")
         ++ lit "</head>".
Proof.
  split; [reflexivity|].
  apply (composeWebViewContent_puts_the_uris_in
           Samples.externalsWithPage (lit "<head>") [] (lit "</head>"));
    reflexivity.
Defined.
